(** * Multiplayer netcode: authoritative game server and latency simulator

    A shallow embedding of
    - [examples/python-server/server.py] (classes [Player], [GameServer]) and
    - [scripts/latency-simulator.py] (class [LatencySimulator], [main])
    of the multiplayer-netcode skill, together with the properties the
    design document states about them.

    Python values are modelled as the interpreter has them: numbers are
    either arbitrary-precision integers ([Z]) or IEEE-754 binary64 floats
    (the kernel's primitive [float]); decoded JSON is a tagged union;
    exceptions are an explicit error result; object state is threaded
    through a small state-and-exception monad. *)

From Stdlib Require Import ZArith Floats Lia.
From stdpp Require Import gmap strings list fin_maps pretty.

Set Warnings "-inexact-float,-register-all".
Local Open Scope Z_scope.

(** ** Python exceptions and results *)

(** The key a [KeyError] reports: a string, or an object used as a key. *)
Inductive dict_key :=
  | StrKey (s : string)
  | ObjKey (handle : nat).

Inductive exn :=
  | KeyError (key : dict_key)
  | AttributeError
  | TypeError
  | OverflowError
  | ZeroDivisionError
  | ValueError
  | RecursionError
  | UnicodeDecodeError
  | JSONDecodeError
  | ConnectionClosed
  | ConnectionResetError
  | CancelledError.

Inductive res (A : Type) :=
  | Ok (a : A)
  | Raise (e : exn).
Arguments Ok {A} a.
Arguments Raise {A} e.

Definition res_bind {A B} (f : A -> res B) (r : res A) : res B :=
  match r with
  | Ok a => f a
  | Raise e => Raise e
  end.

#[global] Instance res_ret : MRet res := fun A a => Ok a.
#[global] Instance res_mbind : MBind res := fun A B f r => res_bind f r.

(** ** Python numbers: [int] and [float] *)

Module PyNum.

Inductive num :=
  | PInt (z : Z)
  | PFloat (f : float).

(** [float(z)] for an [int]: correctly rounded (nearest, ties to even);
    CPython raises [OverflowError] when the rounded value does not fit. *)
Definition float_of_Z (z : Z) : res float :=
  match binary_normalize prec emax z 0 false with
  | S754_infinity _ => Raise OverflowError
  | sf => Ok (SF2Prim sf)
  end.

Definition to_float (n : num) : res float :=
  match n with
  | PInt z => float_of_Z z
  | PFloat f => Ok f
  end.

(** Exact comparison of a float with an integer, as CPython's
    [float_richcompare] performs it: [None] when the float is a NaN. *)
Definition SF_compare_Z (sf : spec_float) (z : Z) : option comparison :=
  match sf with
  | S754_nan => None
  | S754_infinity s => Some (if s then Lt else Gt)
  | S754_zero _ => Some (0 ?= z)
  | S754_finite s m (Zneg k) =>
      Some (cond_Zopp s (Zpos m) ?= z * 2 ^ Zpos k)
  | S754_finite s m e =>
      Some (cond_Zopp s (Zpos m) * 2 ^ e ?= z)
  end.

Definition float_compare_Z (f : float) (z : Z) : option comparison :=
  SF_compare_Z (Prim2SF f) z.

Definition is_cmp (c : comparison) (o : option comparison) : bool :=
  match o, c with
  | Some Lt, Lt | Some Eq, Eq | Some Gt, Gt => true
  | _, _ => false
  end.

(** [a < b] *)
Definition py_lt (a b : num) : bool :=
  match a, b with
  | PInt x, PInt y => x <? y
  | PFloat x, PFloat y => PrimFloat.ltb x y
  | PFloat x, PInt y => is_cmp Lt (float_compare_Z x y)
  | PInt x, PFloat y => is_cmp Gt (float_compare_Z y x)
  end.

(** [a > b] *)
Definition py_gt (a b : num) : bool := py_lt b a.

(** [a <= b] *)
Definition py_le (a b : num) : bool :=
  match a, b with
  | PInt x, PInt y => x <=? y
  | PFloat x, PFloat y => PrimFloat.leb x y
  | PFloat x, PInt y =>
      is_cmp Lt (float_compare_Z x y) || is_cmp Eq (float_compare_Z x y)
  | PInt x, PFloat y =>
      is_cmp Gt (float_compare_Z y x) || is_cmp Eq (float_compare_Z y x)
  end.

(** [a == b] *)
Definition py_eqb (a b : num) : bool :=
  match a, b with
  | PInt x, PInt y => x =? y
  | PFloat x, PFloat y => PrimFloat.eqb x y
  | PFloat x, PInt y => is_cmp Eq (float_compare_Z x y)
  | PInt x, PFloat y => is_cmp Eq (float_compare_Z y x)
  end.

(** [a + b]: two ints add exactly, otherwise both sides become floats. *)
Definition py_add (a b : num) : res num :=
  match a, b with
  | PInt x, PInt y => Ok (PInt (x + y))
  | _, _ =>
      x ← to_float a; y ← to_float b; Ok (PFloat (x + y)%float)
  end.

(** [a * b] *)
Definition py_mul (a b : num) : res num :=
  match a, b with
  | PInt x, PInt y => Ok (PInt (x * y))
  | _, _ =>
      x ← to_float a; y ← to_float b; Ok (PFloat (x * y)%float)
  end.

(** [a / d] for a float divisor [d]. *)
Definition py_truediv (a : num) (d : float) : res float :=
  x ← to_float a;
  if PrimFloat.eqb d 0 then Raise ZeroDivisionError else Ok (x / d)%float.

(** [abs(a)] *)
Definition py_abs (a : num) : num :=
  match a with
  | PInt z => PInt (Z.abs z)
  | PFloat f => PFloat (PrimFloat.abs f)
  end.

(** The builtins [min(a, b)] and [max(a, b)] on two positional arguments:
    the first argument is kept unless the second compares strictly
    smaller (resp. larger). *)
Definition py_min (a b : num) : num := if py_lt b a then b else a.
Definition py_max (a b : num) : num := if py_gt b a then b else a.

End PyNum.
Export PyNum.

(** ** Decoded JSON values (what [json.loads] returns) *)

Inductive json :=
  | JNull
  | JBool (b : bool)
  | JNum (n : num)
  | JStr (s : string)
  | JArr (l : list json)
  | JObj (o : list (string * json)).

(** Lookup in a [dict] decoded from a JSON object. *)
Fixpoint dict_lookup (o : list (string * json)) (k : string) : option json :=
  match o with
  | [] => None
  | (k', v) :: o' => if String.eqb k' k then Some v else dict_lookup o' k
  end.

(** [v.get(k, dflt)]: only a [dict] has the method. *)
Definition py_get (v : json) (k : string) (dflt : json) : res json :=
  match v with
  | JObj o => Ok (default dflt (dict_lookup o k))
  | _ => Raise AttributeError
  end.

(** [v[k]] with a string key. *)
Definition py_getitem (v : json) (k : string) : res json :=
  match v with
  | JObj o =>
      match dict_lookup o k with
      | Some x => Ok x
      | None => Raise (KeyError (StrKey k))
      end
  | _ => Raise TypeError
  end.

(** The number a JSON value stands for in arithmetic; [bool] is a subclass
    of [int]. Everything else raises [TypeError] in [abs] and in [*] with a
    float. *)
Definition as_num (v : json) : res num :=
  match v with
  | JNum n => Ok n
  | JBool b => Ok (PInt (Z.b2z b))
  | _ => Raise TypeError
  end.

(** [v == s] for a string literal [s]. *)
Definition json_is_str (v : json) (s : string) : bool :=
  match v with
  | JStr t => String.eqb t s
  | _ => false
  end.

(** ** A state-and-exception monad for methods that mutate an object *)

Definition M (S A : Type) : Type := S -> res A * S.

Definition M_ret {S A} (a : A) : M S A := fun s => (Ok a, s).

Definition M_bind {S A B} (f : A -> M S B) (m : M S A) : M S B :=
  fun s =>
    match m s with
    | (Ok a, s') => f a s'
    | (Raise e, s') => (Raise e, s')
    end.

#[global] Instance M_mret S : MRet (M S) := fun A a => M_ret a.
#[global] Instance M_mbind S : MBind (M S) := fun A B f m => M_bind f m.

Definition get {S} : M S S := fun s => (Ok s, s).
Definition put {S} (s : S) : M S unit := fun _ => (Ok (), s).
Definition modify {S} (f : S -> S) : M S unit := fun s => (Ok (), f s).
Definition raise {S A} (e : exn) : M S A := fun s => (Raise e, s).

(** A pure computation that may raise, run inside a method. *)
Definition lift {S A} (r : res A) : M S A := fun s => (r, s).

(** [try: m  except <the exceptions h accepts>: h e] *)
Definition try_except {S A} (m : M S A) (h : exn -> option (M S A)) : M S A :=
  fun s =>
    match m s with
    | (Raise e, s') =>
        match h e with
        | Some k => k s'
        | None => (Raise e, s')
        end
    | ok => ok
    end.

(** [try: m  finally: f] -- the finaliser always runs; an exception it
    raises replaces the outcome of [m]. *)
Definition try_finally {S A} (m : M S A) (f : M S unit) : M S A :=
  fun s =>
    match m s with
    | (r, s') =>
        match f s' with
        | (Ok _, s'') => (r, s'')
        | (Raise e, s'') => (Raise e, s'')
        end
    end.

(** A method leaves an observation [f] of the state alone, whether it
    returns or raises. *)
Definition preserves {S A B} (f : S -> B) (m : M S A) : Prop :=
  forall s, f (snd (m s)) = f s.

(** Run the commands of a list in order, stopping at the first exception. *)
Fixpoint for_each {S A} (f : A -> M S unit) (l : list A) : M S unit :=
  match l with
  | [] => mret ()
  | a :: l' => f a ≫= fun _ => for_each f l'
  end.

(** * server.py *)

Module Server.

(** A connection handle (the [websocket] object used as a dictionary key). *)
Definition websocket := nat.

(** The dictionaries [{"x": ..., "y": ...}] held by a player. Only these two
    keys are ever read or written. *)
Record vec2 := Vec2 { vec_x : num; vec_y : num }.

(** [class Player] *)
Record Player := mkPlayer {
  id : string;
  position : vec2;
  velocity : vec2;
  last_processed_input : json
}.

(** [Player.__init__] *)
Definition Player_init (player_id : string) : Player :=
  {| id := player_id;
     position := Vec2 (PFloat 0) (PFloat 0);
     velocity := Vec2 (PFloat 0) (PFloat 0);
     last_processed_input := JNum (PInt 0) |}.

Definition vec2_to_dict (v : vec2) : json :=
  JObj [("x", JNum (vec_x v)); ("y", JNum (vec_y v))]%string.

(** [Player.to_dict] *)
Definition to_dict (p : Player) : json :=
  JObj [("id", JStr (id p));
        ("position", vec2_to_dict (position p));
        ("velocity", vec2_to_dict (velocity p));
        ("lastProcessedInput", last_processed_input p)]%string.

Definition set_position_x (v : num) (p : Player) : Player :=
  {| id := id p; position := Vec2 v (vec_y (position p));
     velocity := velocity p;
     last_processed_input := last_processed_input p |}.
Definition set_position_y (v : num) (p : Player) : Player :=
  {| id := id p; position := Vec2 (vec_x (position p)) v;
     velocity := velocity p;
     last_processed_input := last_processed_input p |}.
Definition set_velocity_x (v : num) (p : Player) : Player :=
  {| id := id p; position := position p;
     velocity := Vec2 v (vec_y (velocity p));
     last_processed_input := last_processed_input p |}.
Definition set_velocity_y (v : num) (p : Player) : Player :=
  {| id := id p; position := position p;
     velocity := Vec2 (vec_x (velocity p)) v;
     last_processed_input := last_processed_input p |}.
Definition set_last_processed_input (v : json) (p : Player) : Player :=
  {| id := id p; position := position p; velocity := velocity p;
     last_processed_input := v |}.

(** [class GameServer]: the attributes of the object. *)
Record GameServer := mkGameServer {
  clients : gmap websocket Player;
  tick_rate : Z;
  tick_interval : float;
  next_client_id : nat
}.

(** [GameServer.__init__] *)
Definition GameServer_init : GameServer :=
  {| clients := ∅;
     tick_rate := 20;
     tick_interval := (1 / 20)%float;
     next_client_id := 0%nat |}.

(** What the server prints. *)
Inductive log_line :=
  | LogConnected (client_id : string)
  | LogDisconnected (client_id : string)
  | LogUnknownType (message_type : json)
  | LogInvalidJSON
  | LogInvalidInput (player_id : string).

(** The server object together with what it can observe of its
    environment: the messages accepted by [websocket.send] per connection,
    the connections on which [send] raises [ConnectionClosed], and the
    lines printed so far. *)
Record World := mkWorld {
  server : GameServer;
  sent : gmap websocket (list json);
  closed : gset websocket;
  stdout : list log_line
}.

Definition set_clients (f : gmap websocket Player -> gmap websocket Player)
    (w : World) : World :=
  {| server := {| clients := f (clients (server w));
                  tick_rate := tick_rate (server w);
                  tick_interval := tick_interval (server w);
                  next_client_id := next_client_id (server w) |};
     sent := sent w; closed := closed w; stdout := stdout w |}.

Definition set_next_client_id (n : nat) (w : World) : World :=
  {| server := {| clients := clients (server w);
                  tick_rate := tick_rate (server w);
                  tick_interval := tick_interval (server w);
                  next_client_id := n |};
     sent := sent w; closed := closed w; stdout := stdout w |}.

Definition print (l : log_line) : M World unit :=
  modify (fun w =>
    {| server := server w; sent := sent w; closed := closed w;
       stdout := stdout w ++ [l] |}).

(** [await websocket.send(message)] *)
Definition websocket_send (ws : websocket) (msg : json) : M World unit :=
  fun w =>
    if decide (ws ∈ closed w) then (Raise ConnectionClosed, w)
    else (Ok (),
          {| server := server w;
             sent := <[ws := default [] (sent w !! ws) ++ [msg]]> (sent w);
             closed := closed w; stdout := stdout w |}).

(** [GameServer.send_message] *)
Definition send_message (ws : websocket) (msg : json) : M World unit :=
  try_except (websocket_send ws msg)
    (fun e => match e with
              | ConnectionClosed => Some (mret ())
              | _ => None
              end).

(** [asyncio.gather(..., return_exceptions=True)] of one task per element:
    an exception of a task is collected, not raised. *)
Definition gather_return_exceptions {A} (f : A -> M World unit)
    (l : list A) : M World unit :=
  for_each (fun a => try_except (f a) (fun _ => Some (mret ()))) l.

(** [GameServer.broadcast] *)
Definition broadcast (msg : json) : M World unit :=
  w ← get;
  if decide (clients (server w) = ∅) then mret ()
  else gather_return_exceptions (fun ws => send_message ws msg)
         (map fst (map_to_list (clients (server w)))).

(** [GameServer.validate_input] *)
Definition validate_input (input_data : json) : res bool :=
  movement ← py_get input_data "movement" (JObj []);
  x ← py_get movement "x" (JNum (PInt 0));
  y ← py_get movement "y" (JNum (PInt 0));
  ax ← as_num x;
  if py_gt (py_abs ax) (PInt 1) then Ok false
  else
    ay ← as_num y;
    if py_gt (py_abs ay) (PInt 1) then Ok false
    else Ok true.

Definition speed : num := PFloat 5.

(** [movement[axis] * speed * delta_time] *)
Definition displacement (movement : json) (axis : string) (delta_time : float)
    : res num :=
  m ← py_getitem movement axis;
  m ← as_num m;
  v ← py_mul m speed;
  py_mul v (PFloat delta_time).

(** [movement[axis] * speed] *)
Definition axis_velocity (movement : json) (axis : string) : res num :=
  m ← py_getitem movement axis;
  m ← as_num m;
  py_mul m speed.

(** [max(-50, min(50, v))] *)
Definition clamp (v : num) : num := py_max (PInt (-50)) (py_min (PInt 50) v).

(** The world rectangle of the design: a coordinate within [-50, 50]. *)
Definition in_bounds (v : num) : bool :=
  py_le (PInt (-50)) v && py_le v (PInt 50).

Definition in_world (p : vec2) : bool :=
  in_bounds (vec_x p) && in_bounds (vec_y p).

(** A movement axis of a valid command: a number within [-1, 1]. *)
Definition axis_in_range (m : num) : bool :=
  py_le (PInt (-1)) m && py_le m (PInt 1).

(** [{"x": 0, "y": 0}] *)
Definition dflt_movement : json :=
  JObj [("x", JNum (PInt 0)); ("y", JNum (PInt 0))]%string.

(** [GameServer.apply_input], as a method on the player it mutates. *)
Definition apply_input (input_data : json) (delta_time : float)
    : M Player unit :=
  movement ← lift (py_get input_data "movement" dflt_movement);
  (* Apply movement *)
  p ← get;
  d ← lift (displacement movement "x" delta_time);
  v ← lift (py_add (vec_x (position p)) d);
  modify (set_position_x v);;
  p ← get;
  d ← lift (displacement movement "y" delta_time);
  v ← lift (py_add (vec_y (position p)) d);
  modify (set_position_y v);;
  (* Update velocity *)
  v ← lift (axis_velocity movement "x");
  modify (set_velocity_x v);;
  v ← lift (axis_velocity movement "y");
  modify (set_velocity_y v);;
  (* World bounds *)
  modify (fun p => set_position_x (clamp (vec_x (position p))) p);;
  modify (fun p => set_position_y (clamp (vec_y (position p))) p).

(** Run a method of the player object registered for [ws]; the object is
    shared with the registry, so what the method did before raising stays. *)
Definition on_player {A} (ws : websocket) (player : Player)
    (m : M Player A) : M World A :=
  fun w =>
    match m player with
    | (r, player') => (r, set_clients (fun c => <[ws := player']> c) w)
    end.

(** [GameServer.handle_input] *)
Definition handle_input (ws : websocket) (data : json) : M World unit :=
  w ← get;
  match clients (server w) !! ws with
  | None => mret ()
  | Some player =>
      input_data ← lift (py_get data "input" (JObj []));
      (* Validate input *)
      valid ← lift (validate_input input_data);
      if negb valid then print (LogInvalidInput (id player))
      else
        (* Apply input, then record last processed input *)
        on_player ws player
          (apply_input input_data (tick_interval (server w));;
           seq ← lift (py_get input_data "sequenceNumber" (JNum (PInt 0)));
           modify (set_last_processed_input seq))
  end.

(** [GameServer.handle_ping] *)
Definition handle_ping (ws : websocket) (data : json) : M World unit :=
  sent_at ← lift (py_get data "sentAt" JNull);
  send_message ws (JObj [("type", JStr "pong"); ("sentAt", sent_at)]%string).

(** [del self.clients[websocket]] *)
Definition del_client (ws : websocket) : M World unit :=
  w ← get;
  match clients (server w) !! ws with
  | Some _ => modify (set_clients (fun c => delete ws c))
  | None => raise (KeyError (ObjKey ws))
  end.

(** How the stream of inbound messages of a connection ends: the iterator
    stops on a normal closure and raises [ConnectionClosed] otherwise. *)
Inductive stream_end :=
  | ClosedOK
  | ClosedError.

(** ** The parts of [handle_client], the game loop, and schedules *)

(** The head of [handle_client], up to its first [await]: the next identity
    is taken, the counter advanced and the player registered. *)
Definition connect (ws : websocket) : M World string :=
  w ← get;
  let client_id : string := pretty (next_client_id (server w)) in
  modify (set_next_client_id (S (next_client_id (server w))));;
  modify (set_clients (fun c => <[ws := Player_init client_id]> c));;
  print (LogConnected client_id);;
  mret client_id.

(** [{"type": "connected", "clientId": ..., "player": player.to_dict()}] *)
Definition connected_message (client_id : string) : json :=
  JObj [("type", JStr "connected");
        ("clientId", JStr client_id);
        ("player", to_dict (Player_init client_id))]%string.

(** [{"type": "playerLeft", "playerId": ...}] *)
Definition player_left_message (client_id : string) : json :=
  JObj [("type", JStr "playerLeft"); ("playerId", JStr client_id)]%string.

(** The [finally] block of [handle_client]. *)
Definition cleanup (ws : websocket) (client_id : string) : M World unit :=
  del_client ws;;
  broadcast (player_left_message client_id).

(** The message built by one turn of [game_loop]; [now] is the value of
    [datetime.now().timestamp()]. The entries follow the registry, whose
    order of insertion the finite map does not record. *)
Definition state_message (now : float) (w : World) : json :=
  JObj [("type", JStr "state");
        ("timestamp", JNum (PFloat (now * 1000)));
        ("players",
         JArr (map (fun kv => to_dict (snd kv))
                 (map_to_list (clients (server w)))))]%string.

(** One turn of the [while True] loop of [game_loop], once the sleep is
    over. *)
Definition tick (now : float) : M World unit :=
  w ← get;
  broadcast (state_message now w).

(** [GameServer.game_loop] for the turns whose clock readings are given. *)
Definition game_loop (clock : list float) : M World unit :=
  for_each tick clock.

(** What the event loop can run next: the start of a handler for a new
    connection, the delivery of a message to a running handler, the end of
    a connection's stream, or a turn of the game loop. *)
Inductive conn_event :=
  | Connect (ws : websocket)
  | Receive (ws : websocket) (message : string)
  | EndOfStream (ws : websocket) (ending : stream_end)
  | Tick (now : float).

(** The server with its running connection handlers, each holding its
    local [client_id]. *)
Record System := mkSystem {
  world : World;
  handlers : gmap websocket string
}.

Definition System_init : System :=
  {| world := {| server := GameServer_init; sent := ∅; closed := ∅;
                 stdout := [] |};
     handlers := ∅ |}.

Section WithDecoder.

(** [json.loads]: the decoded value, or the exception the decoder raises:
    [json.JSONDecodeError] for text that is not JSON, and also [ValueError]
    (an integer literal over the digit limit), [RecursionError] (nesting too
    deep) or [UnicodeDecodeError] (a binary frame that is not UTF-8). *)
Variable json_loads : string -> res json.

Definition loads (message : string) : res json := json_loads message.

(** [GameServer.handle_message] *)
Definition handle_message (ws : websocket) (message : string) : M World unit :=
  try_except
    (data ← lift (loads message);
     message_type ← lift (py_get data "type" JNull);
     if json_is_str message_type "input" then handle_input ws data
     else if json_is_str message_type "ping" then handle_ping ws data
     else print (LogUnknownType message_type))
    (fun e => match e with
              | JSONDecodeError => Some (print LogInvalidJSON)
              | _ => None
              end).

(** [GameServer.handle_client], for a connection that delivers the messages
    [incoming] and then ends with [ending]; the steps of one connection are
    run without interleaving those of others. *)
Definition handle_client (ws : websocket) (incoming : list string)
    (ending : stream_end) : M World unit :=
  w ← get;
  let client_id : string := pretty (next_client_id (server w)) in
  modify (set_next_client_id (S (next_client_id (server w))));;
  let player := Player_init client_id in
  modify (set_clients (fun c => <[ws := player]> c));;
  print (LogConnected client_id);;
  try_finally
    (try_except
       ((* Send initial connection message *)
        send_message ws (JObj [("type", JStr "connected");
                               ("clientId", JStr client_id);
                               ("player", to_dict player)]%string);;
        (* Handle messages *)
        for_each (handle_message ws) incoming;;
        match ending with
        | ClosedOK => mret ()
        | ClosedError => raise ConnectionClosed
        end)
       (fun e => match e with
                 | ConnectionClosed => Some (print (LogDisconnected client_id))
                 | _ => None
                 end))
    ((* Clean up *)
     del_client ws;;
     broadcast (JObj [("type", JStr "playerLeft");
                      ("playerId", JStr client_id)]%string)).

(** One step of the event loop. A connection object gets one handler; an
    event for a connection without a running handler has nobody to run it.
    An exception that leaves [handle_message] goes through the [except]
    clause of [handle_client] and reaches the [finally] block without an
    [await] in between. *)
Definition on_event (ev : conn_event) (s : System) : System :=
  match ev with
  | Connect ws =>
      match handlers s !! ws with
      | Some _ => s
      | None =>
          match connect ws (world s) with
          | (Ok client_id, w1) =>
              {| world := snd (send_message ws (connected_message client_id)
                                 w1);
                 handlers := <[ws := client_id]> (handlers s) |}
          | (Raise _, w1) => {| world := w1; handlers := handlers s |}
          end
      end
  | Receive ws message =>
      match handlers s !! ws with
      | None => s
      | Some client_id =>
          match handle_message ws message (world s) with
          | (Ok _, w1) => {| world := w1; handlers := handlers s |}
          | (Raise e, w1) =>
              let w2 :=
                match e with
                | ConnectionClosed =>
                    snd (print (LogDisconnected client_id) w1)
                | _ => w1
                end in
              {| world := snd (cleanup ws client_id w2);
                 handlers := delete ws (handlers s) |}
          end
      end
  | EndOfStream ws ending =>
      match handlers s !! ws with
      | None => s
      | Some client_id =>
          let w1 :=
            match ending with
            | ClosedOK => world s
            | ClosedError =>
                snd (print (LogDisconnected client_id) (world s))
            end in
          {| world := snd (cleanup ws client_id w1);
             handlers := delete ws (handlers s) |}
      end
  | Tick now =>
      {| world := snd (tick now (world s)); handlers := handlers s |}
  end.

(** The events of a schedule, run in order. *)
Definition run (schedule : list conn_event) (s : System) : System :=
  fold_left (fun s ev => on_event ev s) schedule s.

End WithDecoder.

(** ** Predicates on worlds and systems *)

(** The exceptions that bad message contents can cause. *)
Definition data_error (e : exn) : bool :=
  match e with
  | KeyError _ | AttributeError | TypeError | OverflowError => true
  | ZeroDivisionError | ValueError | RecursionError | UnicodeDecodeError
  | JSONDecodeError | ConnectionClosed | ConnectionResetError
  | CancelledError => false
  end.

(** The method applied to the player by an accepted command: the body of
    [handle_input] after validation. *)
Definition accepted (input_data : json) (delta_time : float) : M Player unit :=
  apply_input input_data delta_time;;
  seq ← lift (py_get input_data "sequenceNumber" (JNum (PInt 0)));
  modify (set_last_processed_input seq).

(** [w'] differs from [w] at most in the player registered for [ws] (which
    stays registered, under the same identity), in the messages sent to
    [ws] and in what was printed. *)
Definition touches_only (ws : websocket) (w w' : World) : Prop :=
  next_client_id (server w') = next_client_id (server w) /\
  tick_rate (server w') = tick_rate (server w) /\
  tick_interval (server w') = tick_interval (server w) /\
  closed w' = closed w /\
  (forall ws', ws' <> ws ->
     clients (server w') !! ws' = clients (server w) !! ws' /\
     sent w' !! ws' = sent w !! ws') /\
  match clients (server w) !! ws with
  | Some p => exists p', clients (server w') !! ws = Some p' /\ id p' = id p
  | None => clients (server w') !! ws = None
  end.

(** Every registered player is inside the world rectangle. *)
Definition all_in_world (w : World) : Prop :=
  forall ws p,
    clients (server w) !! ws = Some p -> in_world (position p) = true.

(** The registry holds exactly the connections whose handler is running,
    each player under its handler's [client_id]; the identities are decimal
    counters below [next_client_id], no two connections share one, and
    every player is inside the world. *)
Definition consistent (s : System) : Prop :=
  (forall ws client_id,
     handlers s !! ws = Some client_id <->
     exists p, clients (server (world s)) !! ws = Some p /\ id p = client_id)
  /\
  (forall ws client_id,
     handlers s !! ws = Some client_id ->
     exists n : nat,
       client_id = pretty n /\
       (n < next_client_id (server (world s)))%nat) /\
  (forall ws1 ws2 client_id,
     handlers s !! ws1 = Some client_id ->
     handlers s !! ws2 = Some client_id -> ws1 = ws2) /\
  all_in_world (world s).

(** ** Concrete commands and players used in the scenarios *)

(** [{"sequenceNumber": seq, "movement": {"x": mx, "y": my}}] *)
Definition command (seq : Z) (mx my : num) : json :=
  JObj [("sequenceNumber", JNum (PInt seq));
        ("movement", JObj [("x", JNum mx); ("y", JNum my)])]%string.

(** A player standing at [(px, py)] with zero velocity. *)
Definition player_at (px py : float) (last : Z) : Player :=
  {| id := "0";
     position := Vec2 (PFloat px) (PFloat py);
     velocity := Vec2 (PFloat 0) (PFloat 0);
     last_processed_input := JNum (PInt last) |}.

(** [{"sequenceNumber": seq, "movement": {axis: m}}]: a movement object
    that carries one axis only. *)
Definition command_one_axis (seq : Z) (axis : string) (m : num) : json :=
  JObj [("sequenceNumber", JNum (PInt seq));
        ("movement", JObj [(axis, JNum m)])]%string.

(** A decoder that knows the one message [message]. *)
Definition decoder_for (message : string) (data : json) (s : string)
    : res json :=
  if String.eqb s message then Ok data else Raise JSONDecodeError.

(** [{"type": "input", "input": cmd}] *)
Definition input_message (cmd : json) : json :=
  JObj [("type", JStr "input"); ("input", cmd)]%string.

(** A freshly started server on which [ws] is registered to player [p]. *)
Definition world_with (ws : websocket) (p : Player) : World :=
  {| server := {| clients := {[ws := p]};
                  tick_rate := 20;
                  tick_interval := (1 / 20)%float;
                  next_client_id := 1%nat |};
     sent := ∅; closed := ∅; stdout := [] |}.

End Server.

(** * latency-simulator.py *)

Module Proxy.

(** One chunk of bytes returned by [reader.read(4096)]. *)
Definition chunk := list Byte.byte.

(** [class LatencySimulator]. The command line gives the two latencies as
    [int] and the loss rate as [float]. [total_delay] starts as the integer
    [0] and only ever has floats added to it; since [float(0) = 0.0] it is
    kept as a float from the start. *)
Record LatencySimulator := mkLatencySimulator {
  target_host : string;
  target_port : Z;
  listen_port : Z;
  base_latency_ms : Z;
  packet_loss_rate : float;
  jitter_ms : Z;
  packets_sent : Z;
  packets_dropped : Z;
  total_delay : float
}.

(** [LatencySimulator.__init__] *)
Definition LatencySimulator_init (target_host : string)
    (target_port listen_port latency_ms : Z) (packet_loss : float)
    (jitter_ms : Z) : LatencySimulator :=
  {| target_host := target_host; target_port := target_port;
     listen_port := listen_port; base_latency_ms := latency_ms;
     packet_loss_rate := packet_loss; jitter_ms := jitter_ms;
     packets_sent := 0; packets_dropped := 0; total_delay := 0%float |}.

(** What a forwarding loop does to its environment. *)
Inductive event :=
  | PrintDropped (direction : string)
  | PrintError (direction : string) (e : exn)
  | Sleep (seconds : float)
  | Write (writer : nat) (data : chunk)
  | Close (writer : nat).

(** The simulator object, the number of values taken from
    [random.random()] so far, and the trace of effects. *)
Record Run := mkRun {
  sim : LatencySimulator;
  rng_calls : nat;
  trace : list event
}.

Definition set_sim (f : LatencySimulator -> LatencySimulator) (r : Run) : Run :=
  {| sim := f (sim r); rng_calls := rng_calls r; trace := trace r |}.

Definition emit (e : event) : M Run unit :=
  modify (fun r =>
    {| sim := sim r; rng_calls := rng_calls r; trace := trace r ++ [e] |}).

Definition incr_packets_sent (s : LatencySimulator) : LatencySimulator :=
  {| target_host := target_host s; target_port := target_port s;
     listen_port := listen_port s; base_latency_ms := base_latency_ms s;
     packet_loss_rate := packet_loss_rate s; jitter_ms := jitter_ms s;
     packets_sent := packets_sent s + 1;
     packets_dropped := packets_dropped s; total_delay := total_delay s |}.

Definition incr_packets_dropped (s : LatencySimulator) : LatencySimulator :=
  {| target_host := target_host s; target_port := target_port s;
     listen_port := listen_port s; base_latency_ms := base_latency_ms s;
     packet_loss_rate := packet_loss_rate s; jitter_ms := jitter_ms s;
     packets_sent := packets_sent s;
     packets_dropped := packets_dropped s + 1; total_delay := total_delay s |}.

Definition add_total_delay (d : float) (s : LatencySimulator)
    : LatencySimulator :=
  {| target_host := target_host s; target_port := target_port s;
     listen_port := listen_port s; base_latency_ms := base_latency_ms s;
     packet_loss_rate := packet_loss_rate s; jitter_ms := jitter_ms s;
     packets_sent := packets_sent s;
     packets_dropped := packets_dropped s;
     total_delay := (total_delay s + d)%float |}.

(** What an [await] comes back with: [None] when the call completes,
    [Some e] when it raises [e] there -- an error of the socket, or
    [CancelledError] when the task is cancelled while it waits. *)
Definition await (outcome : option exn) : M Run unit :=
  match outcome with
  | None => mret ()
  | Some e => raise e
  end.

(** One turn of the loop of [forward] as its environment answers it: what
    [reader.read(4096)] returns or raises and, for a chunk that is
    forwarded, how [asyncio.sleep] and [writer.drain()] come back. *)
Inductive turn :=
  | Read (data : chunk) (sleep drain : option exn)
  | ReadRaises (e : exn).

Section WithRandom.

(** The values [random.random()] returns, call after call; they are
    documented to lie in [[0.0, 1.0)]. *)
Variable draws : nat -> float.

Definition next_draw : M Run float :=
  fun r =>
    (Ok (draws (rng_calls r)),
     {| sim := sim r; rng_calls := S (rng_calls r); trace := trace r |}).

(** [random.random()] *)
Definition random_random : M Run float := next_draw.

(** [random.uniform(a, b)], which the standard library defines as
    [a + (b - a) * self.random()]. With [int] bounds the product and the
    sum convert them to [float], and raise [OverflowError] for a bound that
    has no float value. *)
Definition random_uniform (a b : Z) : M Run num :=
  u ← random_random;
  x ← lift (py_mul (PInt (b - a)) (PFloat u));
  lift (py_add (PInt a) x).

(** [LatencySimulator.calculate_delay] *)
Definition calculate_delay : M Run float :=
  r ← get;
  delay ←
    (if jitter_ms (sim r) >? 0 then
       jitter ← random_uniform (- jitter_ms (sim r)) (jitter_ms (sim r));
       d ← lift (py_add (PInt (base_latency_ms (sim r))) jitter);
       mret (py_max (PInt 0) d)
     else mret (PInt (base_latency_ms (sim r))));
  (* Convert to seconds *)
  lift (py_truediv delay 1000).

(** [LatencySimulator.should_drop_packet] *)
Definition should_drop_packet : M Run bool :=
  u ← random_random;
  r ← get;
  mret (PrimFloat.ltb u (packet_loss_rate (sim r))).

(** The [while True] loop of [forward], over the turns the environment
    answers; an empty chunk, or the end of the list, is end-of-stream. *)
Fixpoint forward_loop (reads : list turn) (writer : nat)
    (direction : string) : M Run unit :=
  match reads with
  | [] => mret ()
  | ReadRaises e :: _ => raise e
  | Read data sleep drain :: reads' =>
      match data with
      | [] => mret ()
      | _ :: _ =>
          modify (set_sim incr_packets_sent);;
          (* Simulate packet loss *)
          drop ← should_drop_packet;
          if drop : bool then
            modify (set_sim incr_packets_dropped);;
            emit (PrintDropped direction);;
            forward_loop reads' writer direction
          else
            (* Calculate delay *)
            delay ← calculate_delay;
            modify (set_sim (add_total_delay delay));;
            (* Simulate latency *)
            (if py_gt (PFloat delay) (PInt 0)
             then emit (Sleep delay);; await sleep
             else mret ());;
            (* Forward data *)
            emit (Write writer data);;
            await drain;;
            forward_loop reads' writer direction
      end
  end.

(** [LatencySimulator.forward]; [closing] is how [writer.wait_closed()]
    comes back. [CancelledError] is not an [Exception]; every other
    exception of the model is one. *)
Definition forward (reads : list turn) (closing : option exn) (writer : nat)
    (direction : string) : M Run unit :=
  try_finally
    (try_except (forward_loop reads writer direction)
       (fun e => match e with
                 | CancelledError => Some (mret ())
                 | _ => Some (emit (PrintError direction e))
                 end))
    (emit (Close writer);; await closing).

End WithRandom.

(** The chunks a loop gets to see: those before the first empty read or
    failed read. *)
Fixpoint read_until_eof (reads : list turn) : list chunk :=
  match reads with
  | Read (b :: data) _ _ :: reads' => (b :: data) :: read_until_eof reads'
  | _ => []
  end.

(** The exception that ends the reading, if it is one. *)
Fixpoint read_failure (reads : list turn) : option exn :=
  match reads with
  | ReadRaises e :: _ => Some e
  | Read (_ :: _) _ _ :: reads' => read_failure reads'
  | _ => None
  end.

(** What the loop does with a chunk it forwards after computing [delay],
    when nothing fails. *)
Definition sleep_then_write (writer : nat) (delay : float) (data : chunk)
    : list event :=
  (if py_gt (PFloat delay) (PInt 0) then [Sleep delay] else [])
  ++ [Write writer data].

(** What the loop does with a chunk it forwards after computing [delay],
    when the sleep and the drain come back as given: the effects, and the
    exception that ends the loop there, if any. *)
Definition forward_chunk (writer : nat) (delay : float) (data : chunk)
    (sleep drain : option exn) : list event * option exn :=
  if py_gt (PFloat delay) (PInt 0) then
    match sleep with
    | Some e => ([Sleep delay], Some e)
    | None => ([Sleep delay; Write writer data], drain)
    end
  else ([Write writer data], drain).

(** The exception a result carries. *)
Definition raised {A} (r : res A) : option exn :=
  match r with
  | Ok _ => None
  | Raise e => Some e
  end.

(** The result of a call that raises when [outcome] is an exception. *)
Definition result_of (outcome : option exn) : res unit :=
  match outcome with
  | None => Ok ()
  | Some e => Raise e
  end.

(** What [forward] prints for the way its loop ended. *)
Definition report (direction : string) (ended : option exn) : list event :=
  match ended with
  | None | Some CancelledError => []
  | Some e => [PrintError direction e]
  end.

(** The parsed command line ([argparse] with its [type=] conversions). *)
Record Args := mkArgs {
  arg_target_host : string;
  arg_target_port : Z;
  arg_listen_port : Z;
  arg_latency : Z;
  arg_jitter : Z;
  arg_packet_loss : float
}.

(** What [main] does after parsing: the lines it prints and, when it gets
    that far, the simulator it hands to [asyncio.run(simulator.start())],
    which is where the listening socket is opened. *)
Record MainResult := mkMainResult {
  printed : list string;
  started : option LatencySimulator
}.

(** [main] *)
Definition main (args : Args) : MainResult :=
  (* Validate arguments *)
  if py_lt (PFloat (arg_packet_loss args)) (PInt 0)
     || py_gt (PFloat (arg_packet_loss args)) (PInt 1)
  then {| printed := ["Error: Packet loss must be between 0.0 and 1.0"%string];
          started := None |}
  else if arg_latency args <? 0
  then {| printed := ["Error: Latency must be >= 0"%string];
          started := None |}
  else
    (* Create and start simulator *)
    {| printed := [];
       started := Some (LatencySimulator_init (arg_target_host args)
                          (arg_target_port args) (arg_listen_port args)
                          (arg_latency args) (arg_packet_loss args)
                          (arg_jitter args)) |}.

(** [if __name__ == "__main__": main()]. When [main] returns, the script has
    nothing left to run and the interpreter exits with status 0; when the
    simulator was started the process serves until it is interrupted. *)
Definition exit_status (r : MainResult) : option Z :=
  match started r with
  | None => Some 0
  | Some _ => None
  end.

(** ** Reading a trace *)

(** The chunks written, with the writer each went to, in order. *)
Definition written (evs : list event) : list (nat * chunk) :=
  flat_map (fun e => match e with
                     | Write writer data => [(writer, data)]
                     | _ => []
                     end) evs.

Fixpoint count_events (f : event -> bool) (evs : list event) : nat :=
  match evs with
  | [] => 0%nat
  | e :: evs' => ((if f e then 1 else 0) + count_events f evs')%nat
  end.

Definition is_dropped (e : event) : bool :=
  match e with PrintDropped _ => true | _ => false end.

Definition is_error (e : event) : bool :=
  match e with PrintError _ _ => true | _ => false end.

Definition is_close (e : event) : bool :=
  match e with Close _ => true | _ => false end.

(** Two simulator objects with the same configuration. *)
Definition same_config (s s' : LatencySimulator) : Prop :=
  target_host s' = target_host s /\ target_port s' = target_port s /\
  listen_port s' = listen_port s /\
  base_latency_ms s' = base_latency_ms s /\
  packet_loss_rate s' = packet_loss_rate s /\ jitter_ms s' = jitter_ms s.

(** A simulator as [main] creates it for the default ports, before any
    chunk has been forwarded. *)
Definition fresh_run (latency_ms : Z) (packet_loss : float) (jitter_ms : Z)
    : Run :=
  {| sim := LatencySimulator_init "localhost" 3000 3001 latency_ms
              packet_loss jitter_ms;
     rng_calls := 0%nat;
     trace := [] |}.

End Proxy.

(** * Properties of the monad *)

Section MonadFacts.
Context {S B : Type} (f : S -> B).

Lemma preserves_ret {A} (a : A) : preserves f (mret a : M S A).
Proof. intros s. reflexivity. Qed.

Lemma preserves_lift {A} (r : res A) : preserves f (lift r).
Proof. intros s. reflexivity. Qed.

Lemma preserves_get : preserves f get.
Proof. intros s. reflexivity. Qed.

Lemma preserves_raise {A} (e : exn) : preserves f (raise e : M S A).
Proof. intros s. reflexivity. Qed.

Lemma preserves_modify (g : S -> S) :
  (forall s, f (g s) = f s) -> preserves f (modify g).
Proof. intros H s. apply H. Qed.

Lemma preserves_bind {A C} (m : M S A) (k : A -> M S C) :
  preserves f m -> (forall a, preserves f (k a)) -> preserves f (m ≫= k).
Proof.
  intros Hm Hk s. unfold mbind, M_mbind, M_bind.
  specialize (Hm s). destruct (m s) as [[a|e] s']; simpl in *.
  - rewrite Hk. exact Hm.
  - exact Hm.
Qed.

Lemma preserves_try_except {A} (m : M S A) (h : exn -> option (M S A)) :
  preserves f m -> (forall e k, h e = Some k -> preserves f k) ->
  preserves f (try_except m h).
Proof.
  intros Hm Hh s. unfold try_except.
  specialize (Hm s). destruct (m s) as [[a|e] s']; simpl in *; [exact Hm|].
  destruct (h e) as [k|] eqn:E; [|exact Hm].
  rewrite (Hh _ _ E). exact Hm.
Qed.

Lemma preserves_for_each {A} (g : A -> M S unit) (l : list A) :
  (forall a, preserves f (g a)) -> preserves f (for_each g l).
Proof.
  intros Hg. induction l as [|a l IH]; simpl.
  - apply preserves_ret.
  - apply preserves_bind; [apply Hg | intros _; exact IH].
Qed.

End MonadFacts.

Create HintDb preserves.
#[global] Hint Resolve preserves_ret preserves_lift preserves_get
  preserves_raise preserves_modify preserves_bind preserves_try_except
  preserves_for_each : preserves.

(** * Properties of Python numbers *)

Section NumFacts.

Lemma SFltb_SFleb a b : SFltb a b = true -> SFleb a b = true.
Proof.
  unfold SFltb, SFleb. destruct (SFcompare a b) as [[]|]; congruence.
Qed.

Lemma float_ltb_leb (a b : float) :
  PrimFloat.ltb a b = true -> PrimFloat.leb a b = true.
Proof. rewrite ltb_spec, leb_spec. apply SFltb_SFleb. Qed.

Lemma lt_le (a b : num) : py_lt a b = true -> py_le a b = true.
Proof.
  destruct a as [x|x], b as [y|y]; simpl.
  - intros H. apply Z.leb_le. apply Z.ltb_lt in H. lia.
  - intros ->. reflexivity.
  - intros ->. reflexivity.
  - apply float_ltb_leb.
Qed.

Lemma float_nonneg_not_neg (u : float) :
  PrimFloat.leb 0 u = true -> PrimFloat.ltb u 0 = false.
Proof.
  rewrite leb_spec, ltb_spec. unfold SFleb, SFltb.
  change (Prim2SF 0) with (S754_zero false).
  destruct (Prim2SF u) as [s|[]| |[] m e]; simpl; congruence.
Qed.

Lemma is_cmp_true (c : comparison) (o : option comparison) :
  is_cmp c o = true <-> o = Some c.
Proof. destruct o as [[]|], c; simpl; split; congruence. Qed.

Lemma SF_compare_Z_Lt_mono (sf : spec_float) (z1 z2 : Z) :
  z1 <= z2 -> SF_compare_Z sf z1 = Some Lt -> SF_compare_Z sf z2 = Some Lt.
Proof.
  intros Hz.
  assert (Hc : forall a b c, b <= c -> Some (a ?= b) = Some Lt ->
                 Some (a ?= c) = Some Lt).
  { intros a b c Hbc [= H]. f_equal. apply Z.compare_lt_iff.
    pose proof (proj1 (Z.compare_lt_iff a b) H) as H'. lia. }
  destruct sf as [s|s| |s m [|k|k]]; cbv beta iota delta [SF_compare_Z];
    try congruence.
  - apply Hc. exact Hz.
  - apply Hc. exact Hz.
  - apply Hc. exact Hz.
  - apply Hc. apply Z.mul_le_mono_nonneg_r; [|exact Hz].
    apply Z.pow_nonneg. lia.
Qed.

Lemma py_lt_int_mono (v : num) (z1 z2 : Z) :
  z1 <= z2 -> py_lt v (PInt z1) = true -> py_lt v (PInt z2) = true.
Proof.
  intros Hz. destruct v as [x|f]; simpl.
  - intros H. apply Z.ltb_lt in H. apply Z.ltb_lt. lia.
  - rewrite !is_cmp_true. apply SF_compare_Z_Lt_mono. exact Hz.
Qed.

Lemma SFltb_asym (a b : spec_float) :
  SFltb a b = true -> SFltb b a = false.
Proof.
  unfold SFltb.
  destruct a as [s1|s1| |s1 m1 e1], b as [s2|s2| |s2 m2 e2]; simpl;
    try congruence;
    try (destruct s1; congruence); try (destruct s2; congruence);
    try (destruct s1, s2; congruence).
  pose proof (Z.compare_antisym e1 e2) as He.
  pose proof (Pos.compare_cont_antisym m1 m2 Eq) as Hm. simpl in Hm.
  destruct s1, s2; try congruence; rewrite He;
    destruct (e1 ?= e2); simpl; try congruence; rewrite <- Hm;
    destruct (Pos.compare_cont Eq m1 m2); simpl; congruence.
Qed.

Lemma py_lt_asym (a b : num) : py_lt a b = true -> py_lt b a = false.
Proof.
  destruct a as [x|x], b as [y|y]; simpl.
  - intros H. apply Z.ltb_lt in H. apply Z.ltb_ge. lia.
  - rewrite is_cmp_true. intros ->. reflexivity.
  - rewrite is_cmp_true. intros ->. reflexivity.
  - rewrite !ltb_spec. apply SFltb_asym.
Qed.

Lemma SFcompare_refl (x : spec_float) :
  x <> S754_nan -> SFcompare x x = Some Eq.
Proof.
  destruct x as [s|s| |s m e]; simpl; try congruence.
  - destruct s; reflexivity.
  - intros _. rewrite Z.compare_refl, Pos.compare_cont_refl.
    destruct s; reflexivity.
Qed.

(** A number that compares with an integer is equal to itself. *)
Lemma py_eqb_refl_le (v : num) (z : Z) :
  py_le v (PInt z) = true -> py_eqb v v = true.
Proof.
  destruct v as [x|f]; simpl.
  - intros _. apply Z.eqb_refl.
  - intros H. rewrite FloatAxioms.eqb_spec. unfold SFeqb.
    rewrite SFcompare_refl; [reflexivity|].
    unfold float_compare_Z in H. intros Hn. rewrite Hn in H.
    discriminate H.
Qed.

End NumFacts.

(** * Properties of server.py *)

Module ServerFacts.
Import Server.

Lemma float_of_Z_small (z : Z) :
  -50 <= z <= 50 -> exists f, float_of_Z z = Ok f.
Proof.
  intros Hz.
  set (ok := fun z => match float_of_Z z with Ok _ => true | Raise _ => false end).
  assert (Hall : forallb ok (map (fun n => Z.of_nat n - 50) (seq 0 101)) = true)
    by (vm_compute; reflexivity).
  rewrite forallb_forall in Hall.
  specialize (Hall z). unfold ok in Hall.
  destruct (float_of_Z z) as [f|e]; [eauto|].
  discriminate Hall.
  apply in_map_iff. exists (Z.to_nat (z + 50)). split; [lia|].
  apply in_seq. lia.
Qed.

Lemma to_float_in_bounds (v : num) :
  in_bounds v = true -> exists f, to_float v = Ok f.
Proof.
  destruct v as [z|f]; simpl; [|eauto].
  unfold in_bounds; simpl. intros H.
  apply andb_prop in H as [H1 H2].
  apply float_of_Z_small. lia.
Qed.

Lemma to_float_axis (m : num) :
  axis_in_range m = true -> exists f, to_float m = Ok f.
Proof.
  destruct m as [z|f]; simpl; [|eauto].
  unfold axis_in_range; simpl. intros H.
  apply andb_prop in H as [H1 H2].
  apply float_of_Z_small. lia.
Qed.

Lemma mul_float (a : num) (x f : float) :
  to_float a = Ok x -> py_mul a (PFloat f) = Ok (PFloat (x * f)).
Proof.
  intros H. destruct a; simpl in *; [rewrite H | injection H as ->]; reflexivity.
Qed.

Lemma add_float (a : num) (x f : float) :
  to_float a = Ok x -> py_add a (PFloat f) = Ok (PFloat (x + f)).
Proof.
  intros H. destruct a; simpl in *; [rewrite H | injection H as ->]; reflexivity.
Qed.

Lemma clamp_in_bounds (v : num) : in_bounds (clamp v) = true.
Proof.
  unfold clamp, py_max, py_min, py_gt, in_bounds.
  destruct (py_lt v (PInt 50)) eqn:Hhi.
  - destruct (py_lt (PInt (-50)) v) eqn:Hlo.
    + rewrite (lt_le _ _ Hhi), (lt_le _ _ Hlo). reflexivity.
    + reflexivity.
  - reflexivity.
Qed.

(** The nest of [min] and [max] is the clamp to [-50, 50]: above the range
    it is 50, below it is -50, and inside it is the number itself. *)
Lemma clamp_cases (v : num) :
  (py_gt v (PInt 50) = true -> clamp v = PInt 50) /\
  (py_lt v (PInt (-50)) = true -> clamp v = PInt (-50)) /\
  (in_bounds v = true -> py_eqb (clamp v) v = true).
Proof.
  unfold clamp, py_max, py_min, py_gt. repeat split.
  - intros H. rewrite (py_lt_asym _ _ H). reflexivity.
  - intros H. rewrite (py_lt_int_mono v (-50) 50 ltac:(lia) H).
    rewrite (py_lt_asym _ _ H). reflexivity.
  - unfold in_bounds. intros H. apply andb_prop in H as [Hlo Hhi].
    destruct (py_lt v (PInt 50)) eqn:E50.
    + destruct (py_lt (PInt (-50)) v) eqn:E.
      * eapply py_eqb_refl_le. exact Hhi.
      * destruct v as [x|f]; unfold py_lt, py_le, py_eqb in *.
        -- apply Z.ltb_ge in E. apply Z.leb_le in Hlo.
           apply Z.eqb_eq. lia.
        -- rewrite E in Hlo. exact Hlo.
    + change (py_lt (PInt (-50)) (PInt 50)) with true. cbv iota.
      destruct v as [x|f]; unfold py_lt, py_le, py_eqb in *.
      * apply Z.ltb_ge in E50. apply Z.leb_le in Hhi.
        apply Z.eqb_eq. lia.
      * rewrite E50 in Hhi. exact Hhi.
Qed.

Lemma apply_input_ok (p : Player) (input_data movement jx jy : json)
    (mx my : num) (dt fx fy px py : float) :
  py_get input_data "movement" dflt_movement = Ok movement ->
  py_getitem movement "x" = Ok jx -> as_num jx = Ok mx ->
  py_getitem movement "y" = Ok jy -> as_num jy = Ok my ->
  to_float mx = Ok fx -> to_float my = Ok fy ->
  to_float (vec_x (position p)) = Ok px ->
  to_float (vec_y (position p)) = Ok py ->
  apply_input input_data dt p =
    (Ok (),
     {| id := id p;
        position := Vec2 (clamp (PFloat (px + fx * 5 * dt)))
                         (clamp (PFloat (py + fy * 5 * dt)));
        velocity := Vec2 (PFloat (fx * 5)) (PFloat (fy * 5));
        last_processed_input := last_processed_input p |}).
Proof.
  intros Hm Hx Hmx Hy Hmy Hfx Hfy Hpx Hpy.
  unfold apply_input, displacement, axis_velocity, speed.
  rewrite Hm.
  cbv [mbind M_mbind M_bind lift get modify res_mbind res_bind].
  rewrite Hx, Hmx, (mul_float _ _ _ Hfx). cbv beta iota. simpl py_mul.
  cbv beta iota. rewrite (add_float _ _ _ Hpx). cbv beta iota.
  rewrite Hy, Hmy, (mul_float _ _ _ Hfy). cbv beta iota. simpl py_mul.
  cbv beta iota.
  change (vec_y (position (set_position_x _ p))) with (vec_y (position p)).
  rewrite (add_float _ _ _ Hpy). cbv beta iota.
  reflexivity.
Qed.

(** C1. For every player inside the world rectangle, every command whose
    two movement axes are numbers within [-1, 1] and every deltaTime (in
    particular every non-negative one), [apply_input] returns normally,
    sets the velocity to (mx * 5.0, my * 5.0) and the position, per axis,
    to the clamp [max(-50, min(50, .))] of old position + velocity *
    deltaTime, which lies within [-50, 50]; identity and
    lastProcessedInput are untouched. From (0, 0), the input {x:1, y:0} over
    0.1 s gives position (0.5, 0.0) and velocity (5.0, 0.0); from (49.8, 0)
    it gives position (50, 0.0), the clamped coordinate being the integer
    50, equal to 50.0. The clamp is 50 above the range, -50 below it and
    the number itself inside it. *)
Theorem apply_input_clamped :
  (forall (p : Player) (input_data movement jx jy : json) (mx my : num)
          (dt : float),
      py_get input_data "movement" dflt_movement = Ok movement ->
      py_getitem movement "x" = Ok jx -> as_num jx = Ok mx ->
      py_getitem movement "y" = Ok jy -> as_num jy = Ok my ->
      axis_in_range mx = true -> axis_in_range my = true ->
      in_world (position p) = true ->
      exists p',
        apply_input input_data dt p = (Ok (), p') /\
        py_mul mx speed = Ok (vec_x (velocity p')) /\
        py_mul my speed = Ok (vec_y (velocity p')) /\
        (d ← py_mul (vec_x (velocity p')) (PFloat dt);
         s ← py_add (vec_x (position p)) d;
         Ok (clamp s)) = Ok (vec_x (position p')) /\
        (d ← py_mul (vec_y (velocity p')) (PFloat dt);
         s ← py_add (vec_y (position p)) d;
         Ok (clamp s)) = Ok (vec_y (position p')) /\
        in_world (position p') = true /\
        id p' = id p /\
        last_processed_input p' = last_processed_input p) /\
  apply_input (command 1 (PInt 1) (PInt 0)) 0.1 (player_at 0 0 0) =
    (Ok (),
     {| id := "0";
        position := Vec2 (PFloat 0.5) (PFloat 0);
        velocity := Vec2 (PFloat 5) (PFloat 0);
        last_processed_input := JNum (PInt 0) |}) /\
  apply_input (command 2 (PInt 1) (PInt 0)) 0.1 (player_at 49.8 0 1) =
    (Ok (),
     {| id := "0";
        position := Vec2 (PInt 50) (PFloat 0);
        velocity := Vec2 (PFloat 5) (PFloat 0);
        last_processed_input := JNum (PInt 1) |}) /\
  py_eqb (PInt 50) (PFloat 50) = true /\
  (forall v : num,
      (py_gt v (PInt 50) = true -> clamp v = PInt 50) /\
      (py_lt v (PInt (-50)) = true -> clamp v = PInt (-50)) /\
      (in_bounds v = true -> py_eqb (clamp v) v = true)).
Proof.
  split; [|split; [|split; [|split]];
           [vm_compute; reflexivity .. | apply clamp_cases]].
  intros p input_data movement jx jy mx my dt Hm Hx Hmx Hy Hmy Rx Ry Hw.
  destruct (to_float_axis _ Rx) as [fx Hfx].
  destruct (to_float_axis _ Ry) as [fy Hfy].
  unfold in_world in Hw. apply andb_prop in Hw as [Wx Wy].
  destruct (to_float_in_bounds _ Wx) as [px Hpx].
  destruct (to_float_in_bounds _ Wy) as [py Hpy].
  eexists. split.
  { eapply apply_input_ok; eassumption. }
  cbn [velocity position vec_x vec_y id last_processed_input].
  unfold speed.
  rewrite (mul_float _ _ _ Hfx), (mul_float _ _ _ Hfy).
  simpl py_mul. cbv [mbind res_mbind res_bind].
  rewrite (add_float _ _ _ Hpx), (add_float _ _ _ Hpy).
  repeat split.
  unfold in_world. cbn [vec_x vec_y].
  rewrite !clamp_in_bounds. reflexivity.
Qed.

Lemma apply_input_preserves_last (input_data : json) (dt : float) :
  preserves last_processed_input (apply_input input_data dt).
Proof.
  unfold apply_input.
  repeat (apply preserves_bind; [|intros]); auto with preserves.
Qed.

Lemma apply_input_preserves_id (input_data : json) (dt : float) :
  preserves id (apply_input input_data dt).
Proof.
  unfold apply_input.
  repeat (apply preserves_bind; [|intros]); auto with preserves.
Qed.

Lemma validate_input_out_of_range (input_data movement jx jy : json)
    (mx my : num) :
  py_get input_data "movement" (JObj []) = Ok movement ->
  py_get movement "x" (JNum (PInt 0)) = Ok jx -> as_num jx = Ok mx ->
  py_get movement "y" (JNum (PInt 0)) = Ok jy -> as_num jy = Ok my ->
  py_gt (py_abs mx) (PInt 1) = true \/ py_gt (py_abs my) (PInt 1) = true ->
  validate_input input_data = Ok false.
Proof.
  intros Hm Hx Hmx Hy Hmy Hout.
  unfold validate_input. rewrite Hm. cbv [mbind res_mbind res_bind].
  rewrite Hx, Hy, Hmx.
  destruct (py_gt (py_abs mx) (PInt 1)) eqn:Ex; [reflexivity|].
  rewrite Hmy. destruct Hout as [Hout|Hout]; [discriminate|].
  rewrite Hout. reflexivity.
Qed.

(** What [handle_input] does once the player is found and the command
    extracted, case by case on the verdict of [validate_input]. *)
Lemma handle_input_registered (ws : websocket) (data input_data : json)
    (w : World) (player : Player) :
  clients (server w) !! ws = Some player ->
  py_get data "input" (JObj []) = Ok input_data ->
  handle_input ws data w =
    match validate_input input_data with
    | Raise e => (Raise e, w)
    | Ok false => print (LogInvalidInput (id player)) w
    | Ok true =>
        on_player ws player
          (apply_input input_data (tick_interval (server w));;
           seq ← lift (py_get input_data "sequenceNumber" (JNum (PInt 0)));
           modify (set_last_processed_input seq)) w
    end.
Proof.
  intros Hp Hi. unfold handle_input.
  cbv [mbind M_mbind M_bind get]. rewrite Hp.
  cbv [lift]. rewrite Hi.
  destruct (validate_input input_data) as [[|]|e]; reflexivity.
Qed.

(** C2. For every command whose axes are numbers and in which either axis
    has absolute value greater than 1, [validate_input] returns [False], and
    handling it on a registered connection returns normally, leaves the
    server object (hence every player's position, velocity and
    lastProcessedInput) unchanged and sends nothing to any client; the only
    effect is a line printed on the server. *)
Theorem out_of_range_rejected (ws : websocket)
    (data input_data movement jx jy : json) (mx my : num) (w : World)
    (player : Player) :
  clients (server w) !! ws = Some player ->
  py_get data "input" (JObj []) = Ok input_data ->
  py_get input_data "movement" (JObj []) = Ok movement ->
  py_get movement "x" (JNum (PInt 0)) = Ok jx -> as_num jx = Ok mx ->
  py_get movement "y" (JNum (PInt 0)) = Ok jy -> as_num jy = Ok my ->
  py_gt (py_abs mx) (PInt 1) = true \/ py_gt (py_abs my) (PInt 1) = true ->
  validate_input input_data = Ok false /\
  exists w',
    handle_input ws data w = (Ok (), w') /\
    server w' = server w /\
    clients (server w') !! ws = Some player /\
    sent w' = sent w /\
    closed w' = closed w /\
    stdout w' = stdout w ++ [LogInvalidInput (id player)].
Proof.
  intros Hp Hi Hm Hx Hmx Hy Hmy Hout.
  pose proof (validate_input_out_of_range _ _ _ _ _ _ Hm Hx Hmx Hy Hmy Hout)
    as Hv.
  split; [exact Hv|].
  rewrite (handle_input_registered _ _ _ _ _ Hp Hi), Hv.
  eexists. split; [reflexivity|]. simpl. auto.
Qed.

(** C10. An input message on a connection that has no entry in the registry
    makes [handle_input] return at once: no exception, and the whole world
    (registry, every player, messages sent, output) is exactly as before,
    whatever the message contains. *)
Theorem handle_input_unregistered (ws : websocket) (data : json) (w : World) :
  clients (server w) !! ws = None ->
  handle_input ws data w = (Ok (), w).
Proof.
  intros Hp. unfold handle_input.
  cbv [mbind M_mbind M_bind get]. rewrite Hp. reflexivity.
Qed.

Lemma validate_input_dict (input_data : json) (b : bool) :
  validate_input input_data = Ok b -> exists o, input_data = JObj o.
Proof. destruct input_data; try discriminate. eauto. Qed.

(** C4. On a registered connection: when [validate_input] accepts the
    command and [apply_input] completes, [handle_input] returns normally and
    the player's lastProcessedInput is the command's sequenceNumber (0 when
    the field is absent), whatever value was stored before -- in particular
    a stored 9 is overwritten by a later command numbered 2; when the
    command is rejected, or not applied to completion, lastProcessedInput
    keeps its previous value. *)
Theorem last_processed_input_recorded :
  (forall (ws : websocket) (data input_data : json) (w : World)
          (player : Player),
      clients (server w) !! ws = Some player ->
      py_get data "input" (JObj []) = Ok input_data ->
      exists p',
        clients (server (snd (handle_input ws data w))) !! ws = Some p' /\
        (validate_input input_data = Ok true ->
         fst (apply_input input_data (tick_interval (server w)) player)
           = Ok () ->
         fst (handle_input ws data w) = Ok () /\
         py_get input_data "sequenceNumber" (JNum (PInt 0))
           = Ok (last_processed_input p')) /\
        (validate_input input_data <> Ok true \/
         fst (apply_input input_data (tick_interval (server w)) player)
           <> Ok () ->
         last_processed_input p' = last_processed_input player)) /\
  last_processed_input <$>
    clients (server (snd (handle_input 1%nat
                            (input_message (command 2 (PInt 1) (PInt 0)))
                            (world_with 1%nat (player_at 0 0 9))))) !! 1%nat
  = Some (JNum (PInt 2)).
Proof.
  split; [|vm_compute; reflexivity].
  intros ws data input_data w player Hp Hi.
  rewrite (handle_input_registered _ _ _ _ _ Hp Hi).
  destruct (validate_input input_data) as [[|]|e] eqn:Hv.
  - destruct (validate_input_dict _ _ Hv) as [o ->].
    pose proof (apply_input_preserves_last (JObj o)
                  (tick_interval (server w)) player) as Hl.
    unfold on_player. cbv [mbind M_mbind M_bind lift modify].
    destruct (apply_input (JObj o) (tick_interval (server w)) player)
      as [[[]|e] p1]; simpl in *.
    + eexists. split; [apply lookup_insert_eq|]. split.
      * intros _ _. split; reflexivity.
      * intros [H|H]; congruence.
    + eexists. split; [apply lookup_insert_eq|]. split.
      * intros _ H. discriminate H.
      * intros _. exact Hl.
  - exists player. simpl. split; [exact Hp|]. split.
    + intros H. discriminate H.
    + reflexivity.
  - exists player. simpl. split; [exact Hp|]. split.
    + intros H. discriminate H.
    + reflexivity.
Qed.

Lemma apply_input_missing_x (input_data : json) (o : list (string * json))
    (dt : float) (p : Player) :
  py_get input_data "movement" dflt_movement = Ok (JObj o) ->
  dict_lookup o "x" = None ->
  apply_input input_data dt p = (Raise (KeyError (StrKey "x")), p).
Proof.
  intros Hm Hx. unfold apply_input, displacement.
  cbv [mbind M_mbind M_bind lift get res_mbind res_bind].
  rewrite Hm. simpl. rewrite Hx. reflexivity.
Qed.

(** C3 (the code departs from the claim). A command whose movement object
    has only the x axis passes [validate_input], which reads the missing y
    as 0, but [apply_input] indexes [movement["y"]] and raises [KeyError]
    after it has already moved the player along x; with only the y axis it
    raises [KeyError] on "x". Through [handle_input] the exception leaves
    the handler. *)
Theorem apply_input_missing_axis_raises :
  validate_input (command_one_axis 1 "x" (PInt 1)) = Ok true /\
  apply_input (command_one_axis 1 "x" (PInt 1)) (1 / 20) (player_at 0 0 0) =
    (Raise (KeyError (StrKey "y")),
     {| id := "0";
        position := Vec2 (PFloat 0.25) (PFloat 0);
        velocity := Vec2 (PFloat 0) (PFloat 0);
        last_processed_input := JNum (PInt 0) |}) /\
  validate_input (command_one_axis 1 "y" (PInt 1)) = Ok true /\
  apply_input (command_one_axis 1 "y" (PInt 1)) (1 / 20) (player_at 0 0 0) =
    (Raise (KeyError (StrKey "x")), player_at 0 0 0) /\
  fst (handle_input 1%nat (input_message (command_one_axis 1 "y" (PInt 1)))
         (world_with 1%nat (player_at 0 0 0)))
    = Raise (KeyError (StrKey "x")).
Proof. repeat split; vm_compute; reflexivity. Qed.

Lemma send_message_ok (ws : websocket) (msg : json) (w : World) :
  exists w', send_message ws msg w = (Ok (), w') /\ server w' = server w.
Proof.
  unfold send_message, try_except, websocket_send.
  destruct (decide (ws ∈ closed w)); eexists; split; reflexivity.
Qed.

Lemma gather_ok (msg : json) (l : list websocket) (w : World) :
  exists w',
    gather_return_exceptions (fun ws => send_message ws msg) l w = (Ok (), w')
    /\ server w' = server w.
Proof.
  revert w. induction l as [|ws l IH]; intros w.
  - exists w. split; reflexivity.
  - unfold gather_return_exceptions. simpl.
    cbv [mbind M_mbind M_bind]. unfold try_except at 1.
    destruct (send_message_ok ws msg w) as (w1 & E1 & S1). rewrite E1.
    destruct (IH w1) as (w2 & E2 & S2).
    exists w2. split; [exact E2 | congruence].
Qed.

Lemma broadcast_ok (msg : json) (w : World) :
  exists w', broadcast msg w = (Ok (), w') /\ server w' = server w.
Proof.
  unfold broadcast. cbv [mbind M_mbind M_bind get].
  destruct (decide (clients (server w) = ∅)).
  - exists w. split; reflexivity.
  - apply gather_ok.
Qed.

Section MessageFacts.
Variable json_loads : string -> res json.

Lemma handle_message_invalid_json (ws : websocket) (message : string)
    (w : World) :
  json_loads message = Raise JSONDecodeError ->
  exists w',
    handle_message json_loads ws message w = (Ok (), w') /\
    server w' = server w /\ sent w' = sent w.
Proof.
  intros H. unfold handle_message, try_except, loads.
  cbv [mbind M_mbind M_bind lift]. rewrite H.
  eexists. split; [reflexivity|]. split; reflexivity.
Qed.

Lemma handle_message_unknown_type (ws : websocket) (message : string)
    (o : list (string * json)) (w : World) :
  json_loads message = Ok (JObj o) ->
  json_is_str (default JNull (dict_lookup o "type")) "input" = false ->
  json_is_str (default JNull (dict_lookup o "type")) "ping" = false ->
  exists w',
    handle_message json_loads ws message w = (Ok (), w') /\
    server w' = server w /\ sent w' = sent w.
Proof.
  intros H Hi Hp. unfold handle_message, try_except, loads.
  cbv [mbind M_mbind M_bind lift]. rewrite H. simpl. rewrite Hi, Hp.
  eexists. split; [reflexivity|]. split; reflexivity.
Qed.

Lemma handle_message_not_object (ws : websocket) (message : string)
    (data : json) (w : World) :
  json_loads message = Ok data ->
  (forall o, data <> JObj o) ->
  handle_message json_loads ws message w = (Raise AttributeError, w).
Proof.
  intros H Hno. unfold handle_message, try_except, loads.
  cbv [mbind M_mbind M_bind lift]. rewrite H.
  destruct data; try reflexivity.
  exfalso. eapply Hno. reflexivity.
Qed.

(** C7 (the code departs from the claim). A message that is valid JSON but
    not an object (a list, a number, a string, [null]) makes
    [handle_message] raise [AttributeError] at [data.get]; only
    [JSONDecodeError] is caught. In [handle_client] the exception ends the
    message loop, the [finally] block deletes the client's registry entry,
    the remaining messages are never read and the exception leaves the
    handler, which closes the connection. *)
Theorem malformed_message_ends_connection (ws : websocket)
    (message : string) (data : json) (rest : list string)
    (ending : stream_end) (w : World) :
  json_loads message = Ok data ->
  (forall o, data <> JObj o) ->
  handle_message json_loads ws message w = (Raise AttributeError, w) /\
  exists w',
    handle_client json_loads ws (message :: rest) ending w
      = (Raise AttributeError, w') /\
    clients (server w') !! ws = None.
Proof.
  intros H Hno. split; [eapply handle_message_not_object; eassumption|].
  unfold handle_client.
  cbv [mbind M_mbind M_bind get modify print].
  unfold try_finally, try_except at 1.
  match goal with
  | |- context [send_message ws ?m ?w1] =>
      destruct (send_message_ok ws m w1) as (w2 & E2 & S2)
  end.
  rewrite E2. simpl for_each. cbv [mbind M_mbind M_bind].
  rewrite (handle_message_not_object ws message data w2 H Hno).
  unfold del_client. cbv [mbind M_mbind M_bind get modify].
  rewrite S2. simpl. rewrite lookup_insert_eq.
  match goal with
  | |- context [broadcast ?m ?w3] =>
      destruct (broadcast_ok m w3) as (w4 & E4 & S4)
  end.
  rewrite E4. eexists. split; [reflexivity|].
  rewrite S4. simpl. apply lookup_delete_eq.
Qed.

End MessageFacts.

(** [del self.clients[websocket]], the one statement of the server that
    removes a registry entry: it removes exactly the entry of a connection
    that is registered and raises nothing; on a registry that does not hold
    the connection it raises [KeyError] and changes nothing. *)
Lemma del_client_spec (ws : websocket) (w : World) :
  (forall player, clients (server w) !! ws = Some player ->
     del_client ws w = (Ok (), set_clients (fun c => delete ws c) w) /\
     clients (server (snd (del_client ws w))) !! ws = None /\
     forall ws', ws' <> ws ->
       clients (server (snd (del_client ws w))) !! ws'
         = clients (server w) !! ws') /\
  (clients (server w) !! ws = None ->
     del_client ws w = (Raise (KeyError (ObjKey ws)), w)).
Proof.
  unfold del_client. cbv [mbind M_mbind M_bind get modify raise].
  split.
  - intros player Hp. rewrite Hp. simpl. split; [reflexivity|]. split.
    + apply lookup_delete_eq.
    + intros ws' Hne. apply lookup_delete_ne. congruence.
  - intros Hp. rewrite Hp. reflexivity.
Qed.

(** ** The theorems at concrete inputs *)

Lemma apply_input_clamped_witness :
  axis_in_range (PFloat 0.5) = true /\
  axis_in_range (PInt (-1)) = true /\
  in_world (position (player_at 10 (-49.99) 4)) = true /\
  exists p',
    apply_input (command 5 (PFloat 0.5) (PInt (-1))) 0.05
      (player_at 10 (-49.99) 4) = (Ok (), p') /\
    in_world (position p') = true.
Proof.
  split; [vm_compute; reflexivity|].
  split; [vm_compute; reflexivity|].
  split; [vm_compute; reflexivity|].
  destruct (proj1 apply_input_clamped
              (player_at 10 (-49.99) 4)
              (command 5 (PFloat 0.5) (PInt (-1)))
              (JObj [("x", JNum (PFloat 0.5)); ("y", JNum (PInt (-1)))]%string)
              (JNum (PFloat 0.5)) (JNum (PInt (-1)))
              (PFloat 0.5) (PInt (-1)) 0.05%float)
    as (p' & E & _ & _ & _ & _ & W & _);
    try (vm_compute; reflexivity).
  exists p'. split; assumption.
Defined.

Lemma out_of_range_rejected_witness :
  py_gt (py_abs (PFloat 1.5)) (PInt 1) = true /\
  validate_input (command 1 (PFloat 1.5) (PInt 0)) = Ok false /\
  exists w',
    handle_input 1%nat (input_message (command 1 (PFloat 1.5) (PInt 0)))
      (world_with 1%nat (player_at 3 4 7)) = (Ok (), w') /\
    clients (server w') !! 1%nat = Some (player_at 3 4 7) /\
    sent w' = ∅.
Proof.
  split; [vm_compute; reflexivity|].
  destruct (out_of_range_rejected 1%nat
              (input_message (command 1 (PFloat 1.5) (PInt 0)))
              (command 1 (PFloat 1.5) (PInt 0))
              (JObj [("x", JNum (PFloat 1.5)); ("y", JNum (PInt 0))]%string)
              (JNum (PFloat 1.5)) (JNum (PInt 0))
              (PFloat 1.5) (PInt 0)
              (world_with 1%nat (player_at 3 4 7)) (player_at 3 4 7))
    as (V & w' & E & _ & C & S & _);
    try (vm_compute; reflexivity).
  { left. vm_compute. reflexivity. }
  split; [exact V|]. exists w'. split; [exact E|]. split; [exact C|].
  exact S.
Defined.

Lemma handle_input_unregistered_witness :
  clients (server (world_with 1%nat (player_at 3 4 7))) !! 2%nat = None /\
  handle_input 2%nat (input_message (command 1 (PInt 1) (PInt 0)))
    (world_with 1%nat (player_at 3 4 7))
  = (Ok (), world_with 1%nat (player_at 3 4 7)).
Proof.
  split; [vm_compute; reflexivity|].
  apply (handle_input_unregistered 2%nat
           (input_message (command 1 (PInt 1) (PInt 0)))
           (world_with 1%nat (player_at 3 4 7))).
  vm_compute. reflexivity.
Defined.

Lemma last_processed_input_recorded_witness :
  exists p',
    clients (server (snd (handle_input 1%nat
                            (input_message (command 2 (PInt 1) (PInt 0)))
                            (world_with 1%nat (player_at 0 0 9))))) !! 1%nat
      = Some p' /\
    last_processed_input p' = JNum (PInt 2).
Proof.
  destruct (proj1 last_processed_input_recorded 1%nat
              (input_message (command 2 (PInt 1) (PInt 0)))
              (command 2 (PInt 1) (PInt 0))
              (world_with 1%nat (player_at 0 0 9)) (player_at 0 0 9))
    as (p' & L & Hok & _);
    try (vm_compute; reflexivity).
  exists p'. split; [exact L|].
  destruct Hok as [_ Hseq]; try (vm_compute; reflexivity).
  simpl in Hseq. congruence.
Defined.

Lemma malformed_message_ends_connection_witness :
  decoder_for "[]" (JArr []) "[]" = Ok (JArr []) /\
  exists w',
    handle_client (decoder_for "[]" (JArr [])) 2%nat ["[]"; "[]"]%string
      ClosedOK (world_with 1%nat (player_at 3 4 7))
      = (Raise AttributeError, w') /\
    clients (server w') !! 2%nat = None.
Proof.
  split; [reflexivity|].
  apply (malformed_message_ends_connection (decoder_for "[]" (JArr []))
           2%nat "[]" (JArr []) ["[]"%string] ClosedOK
           (world_with 1%nat (player_at 3 4 7))).
  - reflexivity.
  - intros o H. discriminate H.
Defined.

End ServerFacts.

(** * Properties of latency-simulator.py *)

Module ProxyFacts.
Import Proxy.

Section WithRandom.
Variable draws : nat -> float.

Lemma next_draw_preserves_sim : preserves sim (next_draw draws).
Proof. intros r. reflexivity. Qed.

Lemma random_uniform_unfold (a b : Z) (r : Run) :
  random_uniform draws a b r
  = (x ← py_mul (PInt (b - a)) (PFloat (draws (rng_calls r)));
     py_add (PInt a) x,
     {| sim := sim r; rng_calls := S (rng_calls r); trace := trace r |}).
Proof.
  unfold random_uniform, random_random, next_draw.
  cbv [mbind M_mbind M_bind lift res_mbind res_bind].
  destruct (py_mul _ _); reflexivity.
Qed.

Lemma random_uniform_preserves_sim (a b : Z) :
  preserves sim (random_uniform draws a b).
Proof. intros r. rewrite random_uniform_unfold. reflexivity. Qed.

Lemma random_uniform_preserves_trace (a b : Z) :
  preserves trace (random_uniform draws a b).
Proof. intros r. rewrite random_uniform_unfold. reflexivity. Qed.

Lemma float_of_Z_overflow (z : Z) (e : exn) :
  float_of_Z z = Raise e -> e = OverflowError.
Proof.
  unfold float_of_Z. destruct (binary_normalize prec emax z 0 false);
    intros [= <-]; reflexivity.
Qed.

(** [random.uniform] returns a float, and raises nothing but
    [OverflowError]. *)
Lemma random_uniform_cases (a b : Z) (r : Run) :
  (exists fd fa : float,
     float_of_Z (b - a) = Ok fd /\ float_of_Z a = Ok fa /\
     fst (random_uniform draws a b r)
       = Ok (PFloat (fa + fd * draws (rng_calls r))%float)) \/
  fst (random_uniform draws a b r) = Raise OverflowError.
Proof.
  rewrite random_uniform_unfold. cbn [fst py_mul py_add to_float].
  cbv [mbind res_mbind res_bind].
  destruct (float_of_Z (b - a)) as [fd|e] eqn:Ed.
  - destruct (float_of_Z a) as [fa|e] eqn:Ea.
    + left. exists fd, fa. auto.
    + right. rewrite (float_of_Z_overflow _ _ Ea). reflexivity.
  - right. rewrite (float_of_Z_overflow _ _ Ed). reflexivity.
Qed.

Lemma calculate_delay_preserves_sim : preserves sim (calculate_delay draws).
Proof.
  unfold calculate_delay.
  apply preserves_bind; [apply preserves_get|intros r0].
  apply preserves_bind; [|intros; apply preserves_lift].
  destruct (jitter_ms (sim r0) >? 0).
  - apply preserves_bind; [apply random_uniform_preserves_sim|intros].
    apply preserves_bind; [apply preserves_lift|intros].
    apply preserves_ret.
  - apply preserves_ret.
Qed.

Lemma calculate_delay_preserves_trace :
  preserves trace (calculate_delay draws).
Proof.
  unfold calculate_delay.
  apply preserves_bind; [apply preserves_get|intros r0].
  apply preserves_bind; [|intros; apply preserves_lift].
  destruct (jitter_ms (sim r0) >? 0).
  - apply preserves_bind; [apply random_uniform_preserves_trace|intros].
    apply preserves_bind; [apply preserves_lift|intros].
    apply preserves_ret.
  - apply preserves_ret.
Qed.

Lemma calculate_delay_no_jitter (r : Run) :
  jitter_ms (sim r) <= 0 ->
  calculate_delay draws r
    = (py_truediv (PInt (base_latency_ms (sim r))) 1000, r).
Proof.
  intros Hj. unfold calculate_delay.
  cbv [mbind M_mbind M_bind get lift mret M_mret M_ret].
  destruct (jitter_ms (sim r) >? 0) eqn:E; [|reflexivity].
  apply Z.gtb_lt in E. lia.
Qed.

(** With a positive jitter the delay is computed from the value
    [random.uniform] returns. *)
Lemma calculate_delay_jitter (r : Run) :
  0 < jitter_ms (sim r) ->
  calculate_delay draws r
    = (u ← fst (random_uniform draws (- jitter_ms (sim r))
                  (jitter_ms (sim r)) r);
       d ← py_add (PInt (base_latency_ms (sim r))) u;
       py_truediv (py_max (PInt 0) d) 1000,
       {| sim := sim r; rng_calls := S (rng_calls r); trace := trace r |}).
Proof.
  intros Hj. unfold calculate_delay.
  cbv [mbind M_mbind M_bind get lift mret M_mret M_ret res_mbind res_bind].
  destruct (jitter_ms (sim r) >? 0) eqn:E.
  - rewrite random_uniform_unfold. cbn [fst].
    cbv [mbind res_mbind res_bind].
    destruct (py_mul _ _) as [x|e]; [|reflexivity].
    destruct (py_add (PInt (- jitter_ms (sim r))) x) as [u|e];
      [|reflexivity].
    destruct (py_add (PInt (base_latency_ms (sim r))) u); reflexivity.
  - rewrite Z.gtb_ltb in E. apply Z.ltb_ge in E. lia.
Qed.

(** One turn of the loop on a non-empty chunk that the draw discards. *)
Lemma forward_loop_dropped (b : Byte.byte) (data : chunk)
    (sl dr : option exn) (reads : list turn) (writer : nat)
    (direction : string) (r : Run) :
  PrimFloat.ltb (draws (rng_calls r)) (packet_loss_rate (sim r)) = true ->
  forward_loop draws (Read (b :: data) sl dr :: reads) writer direction r =
  forward_loop draws reads writer direction
    {| sim := incr_packets_dropped (incr_packets_sent (sim r));
       rng_calls := S (rng_calls r);
       trace := trace r ++ [PrintDropped direction] |}.
Proof.
  intros Hd. simpl forward_loop.
  cbv [mbind M_mbind M_bind get modify emit should_drop_packet random_random
       next_draw mret M_mret M_ret set_sim].
  simpl. rewrite Hd. reflexivity.
Qed.

(** One turn of the loop on a non-empty chunk that the draw keeps. *)
Lemma forward_loop_kept (b : Byte.byte) (data : chunk)
    (sl dr : option exn) (reads : list turn) (writer : nat)
    (direction : string) (r : Run) :
  PrimFloat.ltb (draws (rng_calls r)) (packet_loss_rate (sim r)) = false ->
  forward_loop draws (Read (b :: data) sl dr :: reads) writer direction r =
  match calculate_delay draws
          {| sim := incr_packets_sent (sim r);
             rng_calls := S (rng_calls r);
             trace := trace r |} with
  | (Ok delay, r2) =>
      match snd (forward_chunk writer delay (b :: data) sl dr) with
      | None =>
          forward_loop draws reads writer direction
            {| sim := add_total_delay delay (sim r2);
               rng_calls := rng_calls r2;
               trace := trace r2
                        ++ fst (forward_chunk writer delay (b :: data)
                                  sl dr) |}
      | Some e =>
          (Raise e,
           {| sim := add_total_delay delay (sim r2);
              rng_calls := rng_calls r2;
              trace := trace r2
                       ++ fst (forward_chunk writer delay (b :: data)
                                 sl dr) |})
      end
  | (Raise e, r2) => (Raise e, r2)
  end.
Proof.
  intros Hd. simpl forward_loop.
  cbv [mbind M_mbind M_bind get modify emit should_drop_packet random_random
       next_draw mret M_mret M_ret set_sim await raise].
  simpl. rewrite Hd.
  destruct (calculate_delay draws _) as [[delay|e] r2]; [|reflexivity].
  unfold forward_chunk.
  change (is_cmp Gt (float_compare_Z delay 0))
    with (py_gt (PFloat delay) (PInt 0)).
  destruct (py_gt (PFloat delay) (PInt 0)), sl, dr; simpl;
    rewrite <- ?app_assoc; reflexivity.
Qed.

Lemma forward_chunk_plain (writer : nat) (delay : float) (data : chunk) :
  forward_chunk writer delay data None None
    = (sleep_then_write writer delay data, None).
Proof.
  unfold forward_chunk, sleep_then_write.
  destruct (py_gt (PFloat delay) (PInt 0)); reflexivity.
Qed.

Lemma forward_loop_all_dropped (writer : nat) (direction : string)
    (reads : list turn) (r : Run) :
  packet_loss_rate (sim r) = 1%float ->
  (forall n, PrimFloat.ltb (draws n) 1 = true) ->
  exists r',
    forward_loop draws reads writer direction r
      = (result_of (read_failure reads), r') /\
    trace r' = trace r ++ repeat (PrintDropped direction)
                            (length (read_until_eof reads)) /\
    packets_sent (sim r')
      = packets_sent (sim r) + Z.of_nat (length (read_until_eof reads)) /\
    packets_dropped (sim r')
      = packets_dropped (sim r) + Z.of_nat (length (read_until_eof reads)).
Proof.
  intros Hrate Hdraws. revert r Hrate.
  induction reads as [|[data sl dr|e] reads IH]; intros r Hrate.
  - exists r. simpl. rewrite app_nil_r. repeat split; lia.
  - destruct data as [|b data].
    + exists r. simpl. rewrite app_nil_r. repeat split; lia.
    + rewrite forward_loop_dropped by (rewrite Hrate; apply Hdraws).
      edestruct IH as (r' & E & T & Hs & Hd); [|rewrite E].
      { simpl. exact Hrate. }
      exists r'. split; [reflexivity|].
      simpl in T, Hs, Hd. simpl read_until_eof. simpl length.
      rewrite T, Hs, Hd. rewrite <- app_assoc. simpl.
      repeat split; lia.
  - exists r. simpl. rewrite app_nil_r. repeat split; lia.
Qed.

Lemma forward_loop_none_dropped (writer : nat) (direction : string)
    (reads : list turn) (r : Run) :
  packet_loss_rate (sim r) = 0%float ->
  (forall n, PrimFloat.leb 0 (draws n) = true) ->
  packets_dropped (sim (snd (forward_loop draws reads writer direction r)))
    = packets_dropped (sim r) /\
  exists evs,
    trace (snd (forward_loop draws reads writer direction r))
      = trace r ++ evs /\
    Forall (fun e => forall d, e <> PrintDropped d) evs.
Proof.
  intros Hrate Hdraws. revert r Hrate.
  induction reads as [|[data sl dr|e0] reads IH]; intros r Hrate.
  - simpl. split; [reflexivity|]. exists []. rewrite app_nil_r. auto.
  - destruct data as [|b data].
    + simpl. split; [reflexivity|]. exists []. rewrite app_nil_r. auto.
    + rewrite forward_loop_kept
        by (rewrite Hrate; apply float_nonneg_not_neg, Hdraws).
      match goal with
      | |- context [calculate_delay draws ?r1] =>
          pose proof (calculate_delay_preserves_sim r1) as Hs;
          pose proof (calculate_delay_preserves_trace r1) as Ht;
          destruct (calculate_delay draws r1) as [[delay|e] r2]
      end; simpl in Hs, Ht.
      * assert (F0 : Forall (fun e => forall d, e <> PrintDropped d)
                       (fst (forward_chunk writer delay (b :: data) sl dr))).
        { unfold forward_chunk.
          destruct (py_gt (PFloat delay) (PInt 0)), sl; simpl;
            repeat constructor; discriminate. }
        destruct (snd (forward_chunk writer delay (b :: data) sl dr)).
        -- simpl. split; [rewrite Hs; reflexivity|].
           eexists. rewrite Ht. split; [reflexivity|exact F0].
        -- match goal with
           | |- context [forward_loop draws reads writer direction ?rn] =>
               destruct (IH rn) as (Hd & evs & T & F)
           end.
           { simpl. rewrite Hs. exact Hrate. }
           split.
           { rewrite Hd. simpl. rewrite Hs. reflexivity. }
           exists (fst (forward_chunk writer delay (b :: data) sl dr)
                   ++ evs). split.
           { rewrite T. simpl. rewrite Ht, app_assoc. reflexivity. }
           apply Forall_app. split; [exact F0|exact F].
      * simpl. split; [rewrite Hs; reflexivity|].
        exists []. rewrite app_nil_r, Ht. split; constructor.
  - simpl. split; [reflexivity|]. exists []. rewrite app_nil_r. auto.
Qed.

(** [forward] around its loop: the exception that ends the loop is
    reported or, for a cancellation, swallowed; the writer is closed; the
    outcome is that of [wait_closed]. *)
Lemma forward_unfold (reads : list turn) (closing : option exn)
    (writer : nat) (direction : string) (r : Run) :
  forward draws reads closing writer direction r =
  (result_of closing,
   {| sim := sim (snd (forward_loop draws reads writer direction r));
      rng_calls :=
        rng_calls (snd (forward_loop draws reads writer direction r));
      trace :=
        trace (snd (forward_loop draws reads writer direction r))
        ++ report direction
             (raised (fst (forward_loop draws reads writer direction r)))
        ++ [Close writer] |}).
Proof.
  unfold forward, try_finally, try_except, emit, modify, await, raise.
  cbv [mbind M_mbind M_bind mret M_mret M_ret].
  destruct (forward_loop draws reads writer direction r) as [[[]|e] r1].
  - destruct closing; reflexivity.
  - destruct e, closing; simpl; rewrite <- ?app_assoc; reflexivity.
Qed.

Lemma truediv_1000 (a : num) :
  py_truediv a 1000 = (x ← to_float a; Ok (x / 1000)%float).
Proof. reflexivity. Qed.

(** C5. The drop decision draws one value and is true exactly when that
    value is less than the loss rate. A chunk for which it is true is
    counted as sent and as dropped and never written; a chunk for which it
    is false is not counted as dropped and is written once its delay has
    been computed and slept (the loop ends there instead if the sleep or
    the drain raises). With a loss rate of 1 and draws in [0, 1),
    [forward] writes nothing and both counters grow by the number of
    chunks read; with a loss rate of 0 the count of dropped chunks never
    changes and no drop is reported. *)
Theorem drop_decision :
  (forall r : Run,
      should_drop_packet draws r =
        (Ok (PrimFloat.ltb (draws (rng_calls r)) (packet_loss_rate (sim r))),
         {| sim := sim r; rng_calls := S (rng_calls r);
            trace := trace r |})) /\
  (forall (b : Byte.byte) (data : chunk) (sl dr : option exn)
          (reads : list turn) (writer : nat) (direction : string) (r : Run),
      PrimFloat.ltb (draws (rng_calls r)) (packet_loss_rate (sim r)) = true ->
      forward_loop draws (Read (b :: data) sl dr :: reads) writer direction r
      = forward_loop draws reads writer direction
          {| sim := incr_packets_dropped (incr_packets_sent (sim r));
             rng_calls := S (rng_calls r);
             trace := trace r ++ [PrintDropped direction] |}) /\
  (forall (b : Byte.byte) (data : chunk) (reads : list turn) (writer : nat)
          (direction : string) (r : Run),
      PrimFloat.ltb (draws (rng_calls r)) (packet_loss_rate (sim r)) = false ->
      forward_loop draws (Read (b :: data) None None :: reads) writer
        direction r =
      match calculate_delay draws
              {| sim := incr_packets_sent (sim r);
                 rng_calls := S (rng_calls r);
                 trace := trace r |} with
      | (Ok delay, r2) =>
          forward_loop draws reads writer direction
            {| sim := add_total_delay delay (sim r2);
               rng_calls := rng_calls r2;
               trace := trace r2
                        ++ sleep_then_write writer delay (b :: data) |}
      | (Raise e, r2) => (Raise e, r2)
      end) /\
  (forall (b : Byte.byte) (data : chunk) (sl dr : option exn)
          (reads : list turn) (writer : nat) (direction : string) (r : Run),
      PrimFloat.ltb (draws (rng_calls r)) (packet_loss_rate (sim r)) = false ->
      forward_loop draws (Read (b :: data) sl dr :: reads) writer direction r
      = match calculate_delay draws
                {| sim := incr_packets_sent (sim r);
                   rng_calls := S (rng_calls r);
                   trace := trace r |} with
        | (Ok delay, r2) =>
            match snd (forward_chunk writer delay (b :: data) sl dr) with
            | None =>
                forward_loop draws reads writer direction
                  {| sim := add_total_delay delay (sim r2);
                     rng_calls := rng_calls r2;
                     trace := trace r2
                              ++ fst (forward_chunk writer delay (b :: data)
                                        sl dr) |}
            | Some e =>
                (Raise e,
                 {| sim := add_total_delay delay (sim r2);
                    rng_calls := rng_calls r2;
                    trace := trace r2
                             ++ fst (forward_chunk writer delay (b :: data)
                                       sl dr) |})
            end
        | (Raise e, r2) => (Raise e, r2)
        end) /\
  (forall (reads : list turn) (closing : option exn) (writer : nat)
          (direction : string) (r : Run),
      packet_loss_rate (sim r) = 1%float ->
      (forall n, PrimFloat.leb 0 (draws n) = true /\
                 PrimFloat.ltb (draws n) 1 = true) ->
      exists r',
        forward draws reads closing writer direction r
          = (result_of closing, r') /\
        trace r' = trace r
                   ++ repeat (PrintDropped direction)
                        (length (read_until_eof reads))
                   ++ report direction (read_failure reads)
                   ++ [Close writer] /\
        packets_sent (sim r')
          = packets_sent (sim r)
            + Z.of_nat (length (read_until_eof reads)) /\
        packets_dropped (sim r')
          = packets_dropped (sim r)
            + Z.of_nat (length (read_until_eof reads))) /\
  (forall (reads : list turn) (closing : option exn) (writer : nat)
          (direction : string) (r : Run),
      packet_loss_rate (sim r) = 0%float ->
      (forall n, PrimFloat.leb 0 (draws n) = true /\
                 PrimFloat.ltb (draws n) 1 = true) ->
      packets_dropped
        (sim (snd (forward draws reads closing writer direction r)))
        = packets_dropped (sim r) /\
      exists evs,
        trace (snd (forward draws reads closing writer direction r))
          = trace r ++ evs /\
        Forall (fun e => forall d, e <> PrintDropped d) evs).
Proof.
  split; [reflexivity|].
  split; [intros; apply forward_loop_dropped; assumption|].
  split.
  { intros b data reads writer direction r Hkeep.
    rewrite forward_loop_kept by exact Hkeep.
    destruct (calculate_delay draws _) as [[delay|e] r2]; [|reflexivity].
    rewrite forward_chunk_plain. reflexivity. }
  split; [intros; apply forward_loop_kept; assumption|].
  split.
  - intros reads closing writer direction r Hrate Hdraws.
    destruct (forward_loop_all_dropped writer direction reads r Hrate)
      as (r' & E & T & Hs & Hd); [intros n; apply Hdraws|].
    rewrite forward_unfold, E. eexists. split; [reflexivity|].
    cbn [snd fst sim trace]. rewrite T, <- app_assoc.
    destruct (read_failure reads); auto.
  - intros reads closing writer direction r Hrate Hdraws.
    destruct (forward_loop_none_dropped writer direction reads r Hrate)
      as (Hd & evs & T & F); [intros n; apply Hdraws|].
    rewrite forward_unfold. cbn [snd sim trace].
    split; [exact Hd|].
    eexists. rewrite T, <- app_assoc. split; [reflexivity|].
    apply Forall_app. split; [exact F|].
    apply Forall_app. split.
    + destruct (fst (forward_loop draws reads writer direction r))
        as [[]|e]; [constructor|].
      destruct e; repeat constructor; discriminate.
    + repeat constructor. discriminate.
Qed.

(** C6. With a positive jitter, the delay [calculate_delay] returns is
    max(0, base + u) / 1000.0 seconds, where u is the very value
    [random.uniform(-jitter, jitter)] returned for this call, that is
    -jitter + 2 * jitter * x in floats for the value x that
    [random.random()] gave (the library documents u to lie within
    [-jitter, +jitter]); with a jitter of 0 it is
    max(0, base + 0) / 1000.0 for a base latency that is not negative, and
    no value is drawn. Either way that number of milliseconds is never
    negative. A chunk that is not dropped is
    written right after a sleep of that duration (no sleep when it is not
    positive; no write when the sleep is interrupted). With a jitter of 0
    and a base latency L the delay is exactly L / 1000.0 seconds.
    Whatever the configuration, a sleep that is performed has the computed
    delay as its duration, and that is positive. *)
Theorem delay_imposed :
  (forall (r r1 : Run) (fb : float) (u : num),
      0 < jitter_ms (sim r) ->
      float_of_Z (base_latency_ms (sim r)) = Ok fb ->
      random_uniform draws (- jitter_ms (sim r)) (jitter_ms (sim r)) r
        = (Ok u, r1) ->
      (exists fd fa : float,
         float_of_Z (jitter_ms (sim r) - - jitter_ms (sim r)) = Ok fd /\
         float_of_Z (- jitter_ms (sim r)) = Ok fa /\
         u = PFloat (fa + fd * draws (rng_calls r))%float) /\
      exists (s ms : num) (d : float),
        py_add (PInt (base_latency_ms (sim r))) u = Ok s /\
        ms = py_max (PInt 0) s /\
        py_le (PInt 0) ms = true /\
        py_truediv ms 1000 = Ok d /\
        calculate_delay draws r = (Ok d, r1) /\
        sim r1 = sim r) /\
  (forall (r : Run) (fb : float),
      0 <= base_latency_ms (sim r) ->
      jitter_ms (sim r) = 0 ->
      float_of_Z (base_latency_ms (sim r)) = Ok fb ->
      exists (s ms : num) (d : float),
        py_add (PInt (base_latency_ms (sim r))) (PInt 0) = Ok s /\
        ms = py_max (PInt 0) s /\
        py_le (PInt 0) ms = true /\
        py_truediv ms 1000 = Ok d /\
        calculate_delay draws r = (Ok d, r)) /\
  (forall (b : Byte.byte) (data : chunk) (sl dr : option exn)
          (reads : list turn) (writer : nat) (direction : string)
          (r r2 : Run) (d : float),
      PrimFloat.ltb (draws (rng_calls r)) (packet_loss_rate (sim r)) = false ->
      calculate_delay draws
        {| sim := incr_packets_sent (sim r); rng_calls := S (rng_calls r);
           trace := trace r |} = (Ok d, r2) ->
      forward_loop draws (Read (b :: data) sl dr :: reads) writer direction r
      = match snd (forward_chunk writer d (b :: data) sl dr) with
        | None =>
            forward_loop draws reads writer direction
              {| sim := add_total_delay d (sim r2);
                 rng_calls := rng_calls r2;
                 trace := trace r2
                          ++ fst (forward_chunk writer d (b :: data)
                                    sl dr) |}
        | Some e =>
            (Raise e,
             {| sim := add_total_delay d (sim r2);
                rng_calls := rng_calls r2;
                trace := trace r2
                         ++ fst (forward_chunk writer d (b :: data)
                                   sl dr) |})
        end) /\
  (forall (writer : nat) (d : float) (data : chunk),
      forward_chunk writer d data None None
        = (sleep_then_write writer d data, None)) /\
  (forall (r : Run) (L : Z) (fb : float),
      jitter_ms (sim r) = 0 ->
      base_latency_ms (sim r) = L ->
      float_of_Z L = Ok fb ->
      calculate_delay draws r = (Ok (fb / 1000)%float, r)) /\
  (forall (writer : nat) (d x : float) (data : chunk) (sl dr : option exn),
      In (Sleep x) (fst (forward_chunk writer d data sl dr)) ->
      x = d /\ py_gt (PFloat d) (PInt 0) = true).
Proof.
  split; [|split; [|split; [|split; [|split]]]].
  - intros r r1 fb u Hpos Hfb Hu.
    assert (Hr1 : r1 = {| sim := sim r; rng_calls := S (rng_calls r);
                          trace := trace r |}).
    { rewrite random_uniform_unfold in Hu. congruence. }
    assert (Hfst : fst (random_uniform draws (- jitter_ms (sim r))
                          (jitter_ms (sim r)) r) = Ok u)
      by (rewrite Hu; reflexivity).
    destruct (random_uniform_cases (- jitter_ms (sim r)) (jitter_ms (sim r))
                r) as [(fd & fa & Hfd & Hfa & Hf)|Hf];
      rewrite Hf in Hfst; [|discriminate Hfst].
    injection Hfst as <-.
    split; [exists fd, fa; auto|].
    set (f := (fa + fd * draws (rng_calls r))%float) in *.
    set (s := PFloat (fb + f)).
    assert (Hdiv : exists d, py_truediv (py_max (PInt 0) s) 1000 = Ok d).
    { rewrite truediv_1000. unfold py_max.
      destruct (py_gt s (PInt 0)); simpl; eauto. }
    destruct Hdiv as [d Hd].
    exists s, (py_max (PInt 0) s), d.
    split; [simpl; rewrite Hfb; reflexivity|].
    split; [reflexivity|]. split.
    { unfold py_max. destruct (py_gt s (PInt 0)) eqn:E; [|reflexivity].
      apply lt_le. exact E. }
    split; [exact Hd|].
    rewrite calculate_delay_jitter by exact Hpos.
    rewrite Hf. cbv [mbind res_mbind res_bind].
    simpl py_add. rewrite Hfb. cbv [mbind res_mbind res_bind].
    fold s. rewrite Hd, Hr1. split; reflexivity.
  - intros r fb Hb Hz Hfb.
    exists (PInt (base_latency_ms (sim r) + 0)),
      (PInt (base_latency_ms (sim r))), (fb / 1000)%float.
    split; [reflexivity|]. rewrite Z.add_0_r. split.
    { unfold py_max, py_gt. simpl.
      destruct (0 <? base_latency_ms (sim r)) eqn:E; [reflexivity|].
      apply Z.ltb_ge in E. f_equal. lia. }
    split; [apply Z.leb_le; exact Hb|].
    split; [rewrite truediv_1000; simpl; rewrite Hfb; reflexivity|].
    rewrite calculate_delay_no_jitter by lia.
    rewrite truediv_1000. simpl. rewrite Hfb. reflexivity.
  - intros b data sl dr reads writer direction r r2 d Hkeep Hd.
    rewrite forward_loop_kept by exact Hkeep. rewrite Hd. reflexivity.
  - intros. apply forward_chunk_plain.
  - intros r L fb Hj HL Hfb.
    rewrite calculate_delay_no_jitter by lia.
    rewrite truediv_1000, HL. simpl. rewrite Hfb. reflexivity.
  - intros writer d x data sl dr. unfold forward_chunk.
    destruct (py_gt (PFloat d) (PInt 0)); [destruct sl|]; simpl.
    + intros [[= ->]|[]]. auto.
    + intros [[= ->]|[H|[]]]; [auto|discriminate H].
    + intros [H|[]]. discriminate H.
Qed.

End WithRandom.

(** C8 (as amended). A loss rate below 0 or above 1, or a negative base
    latency, makes [main] print its diagnostic and return before a
    simulator is created or started, so no listening socket is opened;
    [main] returns normally and the process ends with exit status 0. *)
Theorem invalid_configuration_rejected (args : Args) :
  py_lt (PFloat (arg_packet_loss args)) (PInt 0) = true \/
  py_gt (PFloat (arg_packet_loss args)) (PInt 1) = true \/
  arg_latency args < 0 ->
  started (main args) = None /\
  (printed (main args)
     = ["Error: Packet loss must be between 0.0 and 1.0"%string] \/
   printed (main args) = ["Error: Latency must be >= 0"%string]) /\
  exit_status (main args) = Some 0.
Proof.
  intros H. unfold main, exit_status.
  destruct (py_lt (PFloat (arg_packet_loss args)) (PInt 0)
            || py_gt (PFloat (arg_packet_loss args)) (PInt 1)) eqn:E.
  - simpl. auto.
  - apply orb_false_elim in E as [E1 E2].
    destruct H as [H|[H|H]]; [congruence|congruence|].
    apply Z.ltb_lt in H. rewrite H. simpl. auto.
Qed.

(** C8 (the claim as stated fails). With a loss rate of 1.5 the
    configuration is rejected, and the exit status is 0. *)
Lemma invalid_configuration_exits_zero :
  started (main (mkArgs "localhost" 3000 3001 100 0 1.5)) = None /\
  exit_status (main (mkArgs "localhost" 3000 3001 100 0 1.5)) = Some 0.
Proof. vm_compute. split; reflexivity. Qed.

(** ** The theorems at concrete inputs *)

Lemma drop_decision_witness :
  exists r',
    forward (fun _ => 0.25%float)
      [Read [Byte.x01] None None; Read [Byte.x02; Byte.x03] None None;
       ReadRaises ConnectionResetError]
      (Some ConnectionResetError) 7%nat "up" (fresh_run 100 1 0)
    = (Raise ConnectionResetError, r') /\
    trace r' = [PrintDropped "up"; PrintDropped "up";
                PrintError "up" ConnectionResetError; Close 7%nat] /\
    packets_sent (sim r') = 2 /\
    packets_dropped (sim r') = 2.
Proof.
  destruct (proj1 (proj2 (proj2 (proj2 (proj2
              (drop_decision (fun _ => 0.25%float))))))
              [Read [Byte.x01] None None;
               Read [Byte.x02; Byte.x03] None None;
               ReadRaises ConnectionResetError]
              (Some ConnectionResetError) 7%nat "up"%string
              (fresh_run 100 1 0))
    as (r' & E & T & Hs & Hd).
  - reflexivity.
  - intros n. split; vm_compute; reflexivity.
  - exists r'. split; [exact E|]. split; [exact T|].
    split; [exact Hs | exact Hd].
Defined.

Lemma delay_imposed_witness :
  random_uniform (fun _ => 0.375%float) (-20) 20 (fresh_run 100 0 20)
    = (Ok (PFloat (-5)),
       {| sim := sim (fresh_run 100 0 20); rng_calls := 1%nat;
          trace := [] |}) /\
  exists (s ms : num) (d : float),
    py_add (PInt 100) (PFloat (-5)) = Ok s /\
    ms = py_max (PInt 0) s /\
    py_le (PInt 0) ms = true /\
    py_truediv ms 1000 = Ok d /\
    calculate_delay (fun _ => 0.375%float) (fresh_run 100 0 20)
      = (Ok d,
         {| sim := sim (fresh_run 100 0 20); rng_calls := 1%nat;
            trace := [] |}) /\
    sim {| sim := sim (fresh_run 100 0 20); rng_calls := 1%nat;
           trace := [] |} = sim (fresh_run 100 0 20).
Proof.
  split; [vm_compute; reflexivity|].
  refine (proj2 _).
  apply (proj1 (delay_imposed (fun _ => 0.375%float))
           (fresh_run 100 0 20)
           {| sim := sim (fresh_run 100 0 20); rng_calls := 1%nat;
              trace := [] |}
           100%float (PFloat (-5))).
  - simpl. lia.
  - vm_compute. reflexivity.
  - vm_compute. reflexivity.
Defined.

Lemma invalid_configuration_rejected_witness :
  py_gt (PFloat 1.5) (PInt 1) = true /\
  started (main (mkArgs "localhost" 3000 3001 100 0 1.5)) = None /\
  (printed (main (mkArgs "localhost" 3000 3001 100 0 1.5))
     = ["Error: Packet loss must be between 0.0 and 1.0"%string] \/
   printed (main (mkArgs "localhost" 3000 3001 100 0 1.5))
     = ["Error: Latency must be >= 0"%string]) /\
  exit_status (main (mkArgs "localhost" 3000 3001 100 0 1.5)) = Some 0.
Proof.
  split; [vm_compute; reflexivity|].
  apply (invalid_configuration_rejected
           (mkArgs "localhost" 3000 3001 100 0 1.5)).
  right. left. vm_compute. reflexivity.
Defined.

End ProxyFacts.

(** * Further properties of server.py *)

Module ServerMore.
Import Server ServerFacts.

(** Whenever [apply_input] returns, both coordinates have gone through the
    clamp. *)
Lemma apply_input_Ok_in_world (input_data : json) (dt : float)
    (p p' : Player) :
  apply_input input_data dt p = (Ok (), p') ->
  in_world (position p') = true.
Proof.
  unfold apply_input.
  cbv [mbind M_mbind M_bind lift get modify].
  repeat match goal with
         | |- context [match ?x with Ok _ => _ | Raise _ => _ end] =>
             destruct x; try discriminate
         end.
  intros [= <-]. unfold in_world. cbn [position set_position_x set_position_y
    set_velocity_x set_velocity_y vec_x vec_y].
  rewrite !clamp_in_bounds. reflexivity.
Qed.

Lemma abs_in_range (m : num) :
  axis_in_range m = true -> py_gt (py_abs m) (PInt 1) = false.
Proof.
  unfold axis_in_range, py_gt. intros H. apply andb_prop in H as [Hlo Hhi].
  destruct m as [z|f]; unfold py_le, py_lt, py_abs in *.
  - apply Z.leb_le in Hlo, Hhi. apply Z.ltb_ge. lia.
  - unfold float_compare_Z in *. rewrite abs_spec.
    destruct (Prim2SF f) as [s|s| |s m e]; cbn [SFabs].
    + reflexivity.
    + destruct s; simpl in *; discriminate.
    + simpl in *. discriminate.
    + destruct e as [|k|k]; cbv beta iota delta [SF_compare_Z is_cmp] in *.
      * destruct s; cbn [cond_Zopp] in *;
          repeat match goal with
                 | H : context [?a ?= ?b] |- _ =>
                     destruct (Z.compare_spec a b); try discriminate
                 | |- context [?a ?= ?b] =>
                     destruct (Z.compare_spec a b); try reflexivity
                 end; lia.
      * set (P := 2 ^ Z.pos k) in *.
        assert (0 < P) by (apply Z.pow_pos_nonneg; lia).
        destruct s; cbn [cond_Zopp] in *;
          repeat match goal with
                 | H : context [?a ?= ?b] |- _ =>
                     destruct (Z.compare_spec a b); try discriminate
                 | |- context [?a ?= ?b] =>
                     destruct (Z.compare_spec a b); try reflexivity
                 end; nia.
      * set (P := 2 ^ Z.pos k) in *.
        assert (0 < P) by (apply Z.pow_pos_nonneg; lia).
        destruct s; cbn [cond_Zopp] in *;
          repeat match goal with
                 | H : context [?a ?= ?b] |- _ =>
                     destruct (Z.compare_spec a b); try discriminate
                 | |- context [?a ?= ?b] =>
                     destruct (Z.compare_spec a b); try reflexivity
                 end; nia.
Qed.

Lemma get_of_getitem (m : json) (k : string) (v d : json) :
  py_getitem m k = Ok v -> py_get m k d = Ok v.
Proof.
  destruct m; try discriminate. simpl.
  destruct (dict_lookup o k); [|discriminate]. intros [= ->]. reflexivity.
Qed.

(** The movement [validate_input] looks at carries the same axes as the one
    [apply_input] uses, whether the command has a movement object or not. *)
Lemma movement_views (input_data movement jx jy : json) :
  py_get input_data "movement" dflt_movement = Ok movement ->
  py_getitem movement "x" = Ok jx ->
  py_getitem movement "y" = Ok jy ->
  exists movement',
    py_get input_data "movement" (JObj []) = Ok movement' /\
    py_get movement' "x" (JNum (PInt 0)) = Ok jx /\
    py_get movement' "y" (JNum (PInt 0)) = Ok jy.
Proof.
  destruct input_data; try discriminate. simpl.
  destruct (dict_lookup o "movement") as [m|]; simpl.
  - intros [= ->] Hx Hy. exists movement.
    split; [reflexivity|]. split; apply get_of_getitem; assumption.
  - intros [= <-] [= <-] [= <-]. exists (JObj []).
    repeat split.
Qed.

Lemma validate_input_accepts (input_data movement jx jy : json)
    (mx my : num) :
  py_get input_data "movement" (JObj []) = Ok movement ->
  py_get movement "x" (JNum (PInt 0)) = Ok jx -> as_num jx = Ok mx ->
  py_get movement "y" (JNum (PInt 0)) = Ok jy -> as_num jy = Ok my ->
  py_gt (py_abs mx) (PInt 1) = false -> py_gt (py_abs my) (PInt 1) = false ->
  validate_input input_data = Ok true.
Proof.
  intros Hm Hx Hmx Hy Hmy Rx Ry.
  unfold validate_input. rewrite Hm. cbv [mbind res_mbind res_bind].
  rewrite Hx, Hy, Hmx, Rx, Hmy, Ry. reflexivity.
Qed.

Lemma validate_input_in_range (input_data movement jx jy : json)
    (mx my : num) :
  py_get input_data "movement" (JObj []) = Ok movement ->
  py_get movement "x" (JNum (PInt 0)) = Ok jx -> as_num jx = Ok mx ->
  py_get movement "y" (JNum (PInt 0)) = Ok jy -> as_num jy = Ok my ->
  axis_in_range mx = true -> axis_in_range my = true ->
  validate_input input_data = Ok true.
Proof.
  intros Hm Hx Hmx Hy Hmy Rx Ry.
  unfold validate_input. rewrite Hm. cbv [mbind res_mbind res_bind].
  rewrite Hx, Hy, Hmx, (abs_in_range _ Rx), Hmy, (abs_in_range _ Ry).
  reflexivity.
Qed.

(** X1. A command whose two axes are numbers within [-1, 1] (or that has
    no movement object), arriving on a registered connection whose player
    is inside the world, is accepted and applied: the handler returns
    normally, only that player's entry is replaced, the new player is
    inside the world, keeps its identity, has the command's sequence number
    as lastProcessedInput, and nothing is sent or printed. *)
Theorem valid_command_applied (ws : websocket)
    (data input_data movement jx jy : json) (mx my : num) (w : World)
    (player : Player) :
  clients (server w) !! ws = Some player ->
  py_get data "input" (JObj []) = Ok input_data ->
  py_get input_data "movement" dflt_movement = Ok movement ->
  py_getitem movement "x" = Ok jx -> as_num jx = Ok mx ->
  py_getitem movement "y" = Ok jy -> as_num jy = Ok my ->
  axis_in_range mx = true -> axis_in_range my = true ->
  in_world (position player) = true ->
  validate_input input_data = Ok true /\
  exists p',
    handle_input ws data w
      = (Ok (), set_clients (fun c => <[ws := p']> c) w) /\
    py_get input_data "sequenceNumber" (JNum (PInt 0))
      = Ok (last_processed_input p') /\
    py_mul mx speed = Ok (vec_x (velocity p')) /\
    py_mul my speed = Ok (vec_y (velocity p')) /\
    in_world (position p') = true /\
    id p' = id player.
Proof.
  intros Hp Hi Hm Hx Hmx Hy Hmy Rx Ry Hw.
  destruct (movement_views _ _ _ _ Hm Hx Hy) as (m' & Hm' & Hx' & Hy').
  pose proof (validate_input_in_range _ _ _ _ _ _ Hm' Hx' Hmx Hy' Hmy Rx Ry)
    as Hv.
  split; [exact Hv|].
  destruct (to_float_axis _ Rx) as [fx Hfx].
  destruct (to_float_axis _ Ry) as [fy Hfy].
  unfold in_world in Hw. apply andb_prop in Hw as [Wx Wy].
  destruct (to_float_in_bounds _ Wx) as [px Hpx].
  destruct (to_float_in_bounds _ Wy) as [py Hpy].
  pose proof (apply_input_ok player input_data movement jx jy mx my
                (tick_interval (server w)) fx fy px py
                Hm Hx Hmx Hy Hmy Hfx Hfy Hpx Hpy) as Ha.
  destruct (validate_input_dict _ _ Hv) as [o ->].
  rewrite (handle_input_registered _ _ _ _ _ Hp Hi), Hv.
  unfold on_player. cbv [mbind M_mbind M_bind lift modify].
  rewrite Ha. simpl py_get. cbv beta iota.
  eexists. split; [reflexivity|].
  cbn [set_last_processed_input last_processed_input velocity position id
       vec_x vec_y].
  split; [reflexivity|].
  unfold speed. rewrite (mul_float _ _ _ Hfx), (mul_float _ _ _ Hfy).
  split; [reflexivity|]. split; [reflexivity|].
  split; [|reflexivity].
  unfold in_world. cbn [vec_x vec_y]. rewrite !clamp_in_bounds. reflexivity.
Qed.

Lemma valid_command_applied_witness :
  exists p',
    handle_input 1%nat (input_message (command 8 (PFloat (-0.5)) (PInt 1)))
      (world_with 1%nat (player_at 49.9 (-50) 7))
    = (Ok (),
       set_clients (fun c => <[1%nat := p']> c)
         (world_with 1%nat (player_at 49.9 (-50) 7))) /\
    last_processed_input p' = JNum (PInt 8) /\
    in_world (position p') = true.
Proof.
  destruct (valid_command_applied 1%nat
              (input_message (command 8 (PFloat (-0.5)) (PInt 1)))
              (command 8 (PFloat (-0.5)) (PInt 1))
              (JObj [("x", JNum (PFloat (-0.5))); ("y", JNum (PInt 1))]%string)
              (JNum (PFloat (-0.5))) (JNum (PInt 1))
              (PFloat (-0.5)) (PInt 1)
              (world_with 1%nat (player_at 49.9 (-50) 7))
              (player_at 49.9 (-50) 7))
    as (_ & p' & E & Hs & _ & _ & W & _);
    try (vm_compute; reflexivity).
  exists p'. split; [exact E|]. split; [|exact W].
  simpl in Hs. congruence.
Defined.

Lemma float_mul_nan_l (d : float) : (nan * d)%float = nan.
Proof.
  apply Prim2SF_inj. rewrite mul_spec.
  change (Prim2SF nan) with S754_nan. reflexivity.
Qed.

Lemma float_add_nan_r (x : float) : (x + nan)%float = nan.
Proof.
  apply Prim2SF_inj. rewrite add_spec.
  change (Prim2SF nan) with S754_nan.
  destruct (Prim2SF x); reflexivity.
Qed.

(** X2. [validate_input] does not reject a NaN axis ([abs(nan) > 1] is
    false). Applied to a player inside the world, with the other axis in
    range, such a command leaves the player at the upper bound 50 on that
    axis (the nest of [min] and [max] turns NaN into 50) with a NaN
    velocity. *)
Theorem nan_axis_accepted (seq : Z) (my : num) (dt : float) (p : Player) :
  axis_in_range my = true ->
  in_world (position p) = true ->
  validate_input (command seq (PFloat nan) my) = Ok true /\
  exists p',
    apply_input (command seq (PFloat nan) my) dt p = (Ok (), p') /\
    vec_x (position p') = PInt 50 /\
    vec_x (velocity p') = PFloat nan /\
    in_bounds (vec_y (position p')) = true.
Proof.
  intros Ry Hw. split.
  - eapply (validate_input_accepts (command seq (PFloat nan) my)
              (JObj [("x", JNum (PFloat nan)); ("y", JNum my)]%string)
              (JNum (PFloat nan)) (JNum my) (PFloat nan) my);
      try reflexivity.
    apply abs_in_range. exact Ry.
  - destruct (to_float_axis _ Ry) as [fy Hfy].
    unfold in_world in Hw. apply andb_prop in Hw as [Wx Wy].
    destruct (to_float_in_bounds _ Wx) as [px Hpx].
    destruct (to_float_in_bounds _ Wy) as [py Hpy].
    eexists. split.
    { eapply (apply_input_ok p (command seq (PFloat nan) my)
                (JObj [("x", JNum (PFloat nan)); ("y", JNum my)]%string)
                (JNum (PFloat nan)) (JNum my) (PFloat nan) my dt nan fy px py);
        try reflexivity; assumption. }
    cbn [position velocity vec_x vec_y].
    change (nan * 5)%float with nan.
    rewrite float_mul_nan_l, float_add_nan_r.
    split; [reflexivity|]. split; [reflexivity|]. apply clamp_in_bounds.
Qed.

Lemma nan_axis_accepted_witness :
  validate_input (command 3 (PFloat nan) (PInt 0)) = Ok true /\
  exists p',
    apply_input (command 3 (PFloat nan) (PInt 0)) 0.05 (player_at 1 2 0)
      = (Ok (), p') /\
    vec_x (position p') = PInt 50 /\
    vec_x (velocity p') = PFloat nan /\
    in_bounds (vec_y (position p')) = true.
Proof.
  apply (nan_axis_accepted 3 (PInt 0) 0.05%float (player_at 1 2 0));
    vm_compute; reflexivity.
Defined.

Section MoreMessageFacts.
Variable json_loads : string -> res json.



End MoreMessageFacts.



(** ** The exceptions message contents can cause *)

Ltac raise_cases :=
  repeat match goal with
         | |- context [match ?x with Ok _ => _ | Raise _ => _ end] =>
             let E := fresh "E" in destruct x eqn:E
         end.

Lemma py_get_raises v k d e : py_get v k d = Raise e -> data_error e = true.
Proof. destruct v; simpl; intros [= <-]; reflexivity. Qed.

Lemma py_getitem_raises v k e :
  py_getitem v k = Raise e -> data_error e = true.
Proof.
  destruct v; simpl; try (intros [= <-]; reflexivity).
  destruct (dict_lookup o k); intros [= <-]; reflexivity.
Qed.

Lemma as_num_raises v e : as_num v = Raise e -> data_error e = true.
Proof. destruct v; simpl; intros [= <-]; reflexivity. Qed.

Lemma float_of_Z_raises z e : float_of_Z z = Raise e -> data_error e = true.
Proof.
  unfold float_of_Z. destruct (binary_normalize prec emax z 0 false);
    intros [= <-]; reflexivity.
Qed.

Lemma to_float_raises n e : to_float n = Raise e -> data_error e = true.
Proof. destruct n; simpl; [apply float_of_Z_raises|discriminate]. Qed.

Lemma py_mul_raises a b e : py_mul a b = Raise e -> data_error e = true.
Proof.
  destruct a, b; simpl; try discriminate;
    cbv [mbind res_mbind res_bind]; raise_cases;
    intros [= <-]; eauto using float_of_Z_raises.
Qed.

Lemma py_add_raises a b e : py_add a b = Raise e -> data_error e = true.
Proof.
  destruct a, b; simpl; try discriminate;
    cbv [mbind res_mbind res_bind]; raise_cases;
    intros [= <-]; eauto using float_of_Z_raises.
Qed.

Lemma displacement_raises m k dt e :
  displacement m k dt = Raise e -> data_error e = true.
Proof.
  unfold displacement. cbv [mbind res_mbind res_bind]. raise_cases;
    try (intros [= <-]);
    eauto using py_getitem_raises, as_num_raises, py_mul_raises.
Qed.

Lemma axis_velocity_raises m k e :
  axis_velocity m k = Raise e -> data_error e = true.
Proof.
  unfold axis_velocity. cbv [mbind res_mbind res_bind]. raise_cases;
    try (intros [= <-]);
    eauto using py_getitem_raises, as_num_raises, py_mul_raises.
Qed.

Lemma validate_input_raises i e :
  validate_input i = Raise e -> data_error e = true.
Proof.
  unfold validate_input. cbv [mbind res_mbind res_bind]. raise_cases;
    repeat match goal with
           | |- context [if ?b then _ else _] => destruct b
           end;
    try discriminate; try (intros [= <-]);
    eauto using py_get_raises, as_num_raises.
Qed.

Lemma apply_input_raises i dt p e :
  fst (apply_input i dt p) = Raise e -> data_error e = true.
Proof.
  unfold apply_input. cbv [mbind M_mbind M_bind lift get modify].
  raise_cases; simpl; try discriminate; intros [= <-];
    eauto using py_get_raises, displacement_raises, axis_velocity_raises,
      py_add_raises.
Qed.

Lemma accepted_raises i dt p e :
  fst (accepted i dt p) = Raise e -> data_error e = true.
Proof.
  unfold accepted. cbv [mbind M_mbind M_bind lift modify].
  pose proof (apply_input_raises i dt p) as Ha.
  destruct (apply_input i dt p) as [[[]|e0] p1]; simpl in *.
  - destruct (py_get i "sequenceNumber" (JNum (PInt 0))) eqn:E; simpl.
    + discriminate.
    + intros [= <-]. eapply py_get_raises. exact E.
  - intros [= <-]. apply Ha. reflexivity.
Qed.

Section Handling.
Variable json_loads : string -> res json.

(** The four things [handle_input] can do. *)
Lemma handle_input_cases (ws : websocket) (data : json) (w : World) :
  (exists r, handle_input ws data w = (r, w) /\
             match r with Raise e => data_error e = true | Ok _ => True end)
  \/ (exists l, handle_input ws data w = print l w)
  \/ (exists player i,
        clients (server w) !! ws = Some player /\
        validate_input i = Ok true /\
        handle_input ws data w
          = on_player ws player (accepted i (tick_interval (server w))) w).
Proof.
  destruct (clients (server w) !! ws) as [player|] eqn:Hp.
  - destruct (py_get data "input" (JObj [])) as [i|e] eqn:Hi.
    + rewrite (handle_input_registered _ _ _ _ _ Hp Hi).
      destruct (validate_input i) as [[|]|e] eqn:Hv.
      * right. right. exists player, i. auto.
      * right. left. eexists. reflexivity.
      * left. eexists. split; [reflexivity|].
        eapply validate_input_raises. exact Hv.
    + left. exists (Raise e). split.
      * unfold handle_input. cbv [mbind M_mbind M_bind get lift].
        rewrite Hp, Hi. reflexivity.
      * eapply py_get_raises. exact Hi.
  - left. exists (Ok ()). split; [|exact I].
    apply handle_input_unregistered. exact Hp.
Qed.

(** The four things [handle_message] can do: nothing at all (returning, or
    raising an exception the decoder raised or the contents caused), print
    one line, send one message to the sender, or run an accepted command on
    the sender's player. *)
Lemma handle_message_cases (ws : websocket) (message : string) (w : World) :
  (exists r, handle_message json_loads ws message w = (r, w) /\
             match r with
             | Raise e =>
                 e <> JSONDecodeError /\
                 (json_loads message = Raise e \/ data_error e = true)
             | Ok _ => True
             end)
  \/ (exists l, handle_message json_loads ws message w = print l w)
  \/ (exists m, handle_message json_loads ws message w
                 = send_message ws m w)
  \/ (exists player i,
        clients (server w) !! ws = Some player /\
        validate_input i = Ok true /\
        handle_message json_loads ws message w
          = on_player ws player (accepted i (tick_interval (server w))) w).
Proof.
  unfold handle_message, try_except, loads.
  cbv [mbind M_mbind M_bind lift].
  destruct (json_loads message) as [data|e0].
  - destruct (py_get data "type" JNull) as [t|e] eqn:Ht.
    + destruct (json_is_str t "input").
      * destruct (handle_input_cases ws data w)
          as [(r & E & Hr)|[(l & E)|(player & i & Hp & Hv & E)]];
          rewrite E.
        -- left. exists r.
           destruct r as [[]|e]; [split; [reflexivity|exact I]|].
           destruct e; try discriminate; (split; [reflexivity|]);
             (split; [discriminate|right; reflexivity]).
        -- right. left. exists l. reflexivity.
        -- right. right. right. exists player, i.
           split; [exact Hp|]. split; [exact Hv|].
           pose proof (accepted_raises i (tick_interval (server w)) player)
             as Hr.
           unfold on_player.
           destruct (accepted i (tick_interval (server w)) player)
             as [[[]|e] p1]; [reflexivity|].
           specialize (Hr e eq_refl). destruct e; try discriminate;
             reflexivity.
      * destruct (json_is_str t "ping").
        -- right. right. left. unfold handle_ping.
           cbv [mbind M_mbind M_bind lift].
           destruct data; try discriminate. cbn [py_get].
           exists (JObj [("type", JStr "pong");
                         ("sentAt", default JNull (dict_lookup o "sentAt"))]).
           destruct (send_message_ok ws
                       (JObj [("type", JStr "pong");
                              ("sentAt",
                               default JNull (dict_lookup o "sentAt"))]) w)
             as (w2 & E2 & _).
           rewrite E2. reflexivity.
        -- right. left. eexists. reflexivity.
    + left. exists (Raise e).
      pose proof (py_get_raises _ _ _ _ Ht) as He.
      destruct e; try discriminate; (split; [reflexivity|]);
        (split; [discriminate|right; reflexivity]).
  - destruct e0;
      try (left; eexists (Raise _); split; [reflexivity|];
           split; [discriminate|left; reflexivity]).
    right. left. eexists. reflexivity.
Qed.

Lemma touches_only_same_server (ws : websocket) (w w' : World) :
  server w' = server w -> closed w' = closed w ->
  (forall ws', ws' <> ws -> sent w' !! ws' = sent w !! ws') ->
  touches_only ws w w'.
Proof.
  intros Hs Hc Hsent. unfold touches_only. rewrite Hs.
  repeat split; auto.
  destruct (clients (server w) !! ws) as [p|]; eauto.
Qed.

Lemma send_message_touches (ws : websocket) (m : json) (w : World) :
  touches_only ws w (snd (send_message ws m w)).
Proof.
  unfold send_message, try_except, websocket_send.
  destruct (decide (ws ∈ closed w)); simpl;
    apply touches_only_same_server; try reflexivity.
  intros ws' Hne. simpl. apply lookup_insert_ne. congruence.
Qed.

Lemma accepted_preserves_id (i : json) (dt : float) :
  preserves id (accepted i dt).
Proof.
  unfold accepted.
  apply preserves_bind; [apply apply_input_preserves_id|intros].
  apply preserves_bind; [apply preserves_lift|intros].
  apply preserves_modify. reflexivity.
Qed.

Lemma on_player_touches (ws : websocket) (player : Player) (i : json)
    (dt : float) (w : World) :
  clients (server w) !! ws = Some player ->
  touches_only ws w (snd (on_player ws player (accepted i dt) w)).
Proof.
  intros Hp. unfold on_player.
  pose proof (accepted_preserves_id i dt player) as Hid.
  destruct (accepted i dt player) as [r p1]. simpl in *.
  unfold touches_only. simpl. repeat split; auto.
  - apply lookup_insert_ne. congruence.
  - rewrite Hp. exists p1. split; [apply lookup_insert_eq|exact Hid].
Qed.

Lemma handle_message_touches (ws : websocket) (message : string)
    (w : World) :
  touches_only ws w (snd (handle_message json_loads ws message w)).
Proof.
  destruct (handle_message_cases ws message w)
    as [(r & E & _)|[(l & E)|[(m & E)|(player & i & Hp & _ & E)]]];
    rewrite E.
  - apply touches_only_same_server; reflexivity.
  - apply touches_only_same_server; reflexivity.
  - apply send_message_touches.
  - apply on_player_touches. exact Hp.
Qed.

Lemma handle_message_raised (ws : websocket) (message : string)
    (w : World) (e : exn) :
  fst (handle_message json_loads ws message w) = Raise e ->
  e <> JSONDecodeError /\
  (json_loads message = Raise e \/ data_error e = true).
Proof.
  destruct (handle_message_cases ws message w)
    as [(r & E & Hr)|[(l & E)|[(m & E)|(player & i & Hp & _ & E)]]];
    rewrite E.
  - simpl. intros ->. exact Hr.
  - discriminate.
  - destruct (send_message_ok ws m w) as (w2 & E2 & _). rewrite E2.
    discriminate.
  - unfold on_player.
    pose proof (accepted_raises i (tick_interval (server w)) player e) as Hr.
    destruct (accepted i (tick_interval (server w)) player) as [r p1].
    intros He. specialize (Hr He).
    split; [intros ->; discriminate|right; exact Hr].
Qed.

Lemma handle_message_world (ws : websocket) (message : string)
    (w : World) :
  all_in_world w ->
  fst (handle_message json_loads ws message w) = Ok () ->
  all_in_world (snd (handle_message json_loads ws message w)).
Proof.
  intros Hw.
  destruct (handle_message_cases ws message w)
    as [(r & E & _)|[(l & E)|[(m & E)|(player & i & Hp & _ & E)]]];
    rewrite E.
  - intros _. exact Hw.
  - intros _. exact Hw.
  - intros _. destruct (send_message_ok ws m w) as (w2 & E2 & S2).
    rewrite E2. simpl. unfold all_in_world. rewrite S2. exact Hw.
  - unfold on_player, accepted. cbv [mbind M_mbind M_bind lift modify].
    pose proof (apply_input_Ok_in_world i (tick_interval (server w)) player)
      as Ha.
    destruct (apply_input i (tick_interval (server w)) player)
      as [[[]|e] p1]; simpl; [|discriminate].
    destruct (py_get i "sequenceNumber" (JNum (PInt 0))); simpl;
      [|discriminate].
    intros _ ws' p'. simpl.
    destruct (decide (ws' = ws)) as [->|Hne].
    + rewrite lookup_insert_eq. intros [= <-]. simpl. eapply Ha. reflexivity.
    + rewrite lookup_insert_ne by congruence. apply Hw.
Qed.

(** X5. Whatever the message and whatever the decoder returns for it,
    [handle_message] changes at most the sender's own player (which stays
    registered under the same identity), the messages sent to the sender
    and the server's output: the identity counter, the tick settings, every
    other player and every other connection's messages are untouched, also
    when it raises. *)
Theorem handle_message_frame (ws : websocket) (message : string)
    (w : World) :
  touches_only ws w (snd (handle_message json_loads ws message w)).
Proof.
  destruct (handle_message_cases ws message w)
    as [(r & E & _)|[(l & E)|[(m & E)|(player & i & Hp & _ & E)]]];
    rewrite E.
  - apply touches_only_same_server; reflexivity.
  - apply touches_only_same_server; reflexivity.
  - apply send_message_touches.
  - apply on_player_touches. exact Hp.
Qed.


(** X7. If every registered player is inside the world rectangle and
    [handle_message] returns normally, every registered player is still
    inside it: a command is either refused or applied through the clamp. *)
Theorem handle_message_keeps_world (ws : websocket) (message : string)
    (w : World) :
  all_in_world w ->
  fst (handle_message json_loads ws message w) = Ok () ->
  all_in_world (snd (handle_message json_loads ws message w)).
Proof.
  intros Hw.
  destruct (handle_message_cases ws message w)
    as [(r & E & _)|[(l & E)|[(m & E)|(player & i & Hp & _ & E)]]];
    rewrite E.
  - intros _. exact Hw.
  - intros _. exact Hw.
  - intros _. destruct (send_message_ok ws m w) as (w2 & E2 & S2).
    rewrite E2. simpl. unfold all_in_world. rewrite S2. exact Hw.
  - unfold on_player, accepted. cbv [mbind M_mbind M_bind lift modify].
    pose proof (apply_input_Ok_in_world i (tick_interval (server w)) player)
      as Ha.
    destruct (apply_input i (tick_interval (server w)) player)
      as [[[]|e] p1]; simpl; [|discriminate].
    destruct (py_get i "sequenceNumber" (JNum (PInt 0))); simpl;
      [|discriminate].
    intros _ ws' p'. simpl.
    destruct (decide (ws' = ws)) as [->|Hne].
    + rewrite lookup_insert_eq. intros [= <-]. simpl. eapply Ha. reflexivity.
    + rewrite lookup_insert_ne by congruence. apply Hw.
Qed.

End Handling.

(** ** Delivery of broadcasts *)

Lemma gather_delivery (msg : json) (l : list websocket) (w : World) :
  NoDup l ->
  exists w',
    gather_return_exceptions (fun ws => send_message ws msg) l w = (Ok (), w')
    /\ server w' = server w /\ closed w' = closed w
    /\ stdout w' = stdout w
    /\ forall ws,
         sent w' !! ws =
           if decide (ws ∈ l /\ ws ∉ closed w)
           then Some (default [] (sent w !! ws) ++ [msg])
           else sent w !! ws.
Proof.
  intros Hnd. revert w. induction Hnd as [|a l Ha Hnd IH]; intros w.
  - exists w. split; [reflexivity|]. split; [reflexivity|].
    split; [reflexivity|]. split; [reflexivity|].
    intros ws.
    destruct (decide _) as [[H _]|_]; [|reflexivity].
    apply elem_of_nil in H. contradiction.
  - unfold gather_return_exceptions. simpl for_each.
    cbv [mbind M_mbind M_bind]. unfold try_except at 1.
    assert (Hsend : exists w1,
               send_message a msg w = (Ok (), w1) /\
               server w1 = server w /\ closed w1 = closed w /\
               stdout w1 = stdout w /\
               forall ws,
                 sent w1 !! ws =
                   if decide (ws = a /\ ws ∉ closed w)
                   then Some (default [] (sent w !! ws) ++ [msg])
                   else sent w !! ws).
    { unfold send_message, try_except, websocket_send.
      destruct (decide (a ∈ closed w)) as [Hc|Hc].
      - exists w. split; [reflexivity|]. split; [reflexivity|].
    split; [reflexivity|]. split; [reflexivity|].
        intros ws.
        destruct (decide _) as [[-> H]|_]; [contradiction|reflexivity].
      - eexists. split; [reflexivity|]. simpl.
        split; [reflexivity|]. split; [reflexivity|].
        split; [reflexivity|]. intros ws.
        destruct (decide _) as [[-> H]|H].
        + apply lookup_insert_eq.
        + apply lookup_insert_ne. intros <-. apply H. auto. }
    destruct Hsend as (w1 & E1 & S1 & C1 & O1 & D1). rewrite E1.
    destruct (IH w1) as (w2 & E2 & S2 & C2 & O2 & D2).
    exists w2. split; [exact E2|].
    split; [congruence|]. split; [congruence|]. split; [congruence|].
    intros ws. rewrite D2, C1, D1.
    destruct (decide (ws = a)) as [->|Hne].
    + destruct (decide (a ∈ l /\ a ∉ closed w)) as [[H _]|_];
        [contradiction|].
      destruct (decide (a = a /\ a ∉ closed w)) as [[_ H]|H];
        destruct (decide (a ∈ a :: l /\ a ∉ closed w)) as [[_ H']|H'];
        try reflexivity.
      * exfalso. apply H'. split; [left|exact H].
      * exfalso. apply H. auto.
    + destruct (decide (ws = a /\ ws ∉ closed w)) as [[H _]|_];
        [contradiction|].
      destruct (decide (ws ∈ l /\ ws ∉ closed w)) as [[H1 H2]|H];
        destruct (decide (ws ∈ a :: l /\ ws ∉ closed w)) as [[H1' H2']|H'];
        try reflexivity.
      * exfalso. apply H'. split; [right; exact H1|exact H2].
      * exfalso. apply H. split; [|exact H2'].
        apply elem_of_cons in H1' as [?|?]; [contradiction|assumption].
Qed.

Lemma map_fst_keys (m : gmap websocket Player) (ws : websocket) :
  ws ∈ map fst (map_to_list m) <-> is_Some (m !! ws).
Proof.
  rewrite list_elem_of_In, in_map_iff. split.
  - intros ([k p] & <- & Hin). apply list_elem_of_In in Hin.
    apply elem_of_map_to_list in Hin. simpl. eauto.
  - intros [p Hp]. exists (ws, p). split; [reflexivity|].
    apply list_elem_of_In. apply elem_of_map_to_list. exact Hp.
Qed.

Lemma map_fst_NoDup (m : gmap websocket Player) :
  NoDup (map fst (map_to_list m)).
Proof.
  replace (map fst (map_to_list m)) with ((map_to_list m).*1).
  - apply NoDup_fst_map_to_list.
  - induction (map_to_list m) as [|a l IH]; [reflexivity|].
    simpl. f_equal; try exact IH.
Qed.

Lemma broadcast_sends (msg : json) (w : World) :
  exists w',
    broadcast msg w = (Ok (), w') /\
    server w' = server w /\ closed w' = closed w /\
    stdout w' = stdout w /\
    forall ws,
      sent w' !! ws =
        if decide (is_Some (clients (server w) !! ws) /\ ws ∉ closed w)
        then Some (default [] (sent w !! ws) ++ [msg])
        else sent w !! ws.
Proof.
  unfold broadcast. cbv [mbind M_mbind M_bind get].
  destruct (decide (clients (server w) = ∅)) as [He|Hne].
  - exists w. split; [reflexivity|]. split; [reflexivity|].
    split; [reflexivity|]. split; [reflexivity|].
    intros ws. rewrite He, lookup_empty.
    destruct (decide _) as [[[p H] _]|_]; [discriminate H|reflexivity].
  - destruct (gather_delivery msg (map fst (map_to_list (clients (server w))))
                w (map_fst_NoDup _)) as (w' & E & S & C & O & D).
    exists w'. split; [exact E|]. split; [exact S|]. split; [exact C|].
    split; [exact O|]. intros ws. rewrite D.
    destruct (decide (ws ∈ map fst (map_to_list (clients (server w)))
                      /\ ws ∉ closed w)) as [[H1 H2]|H];
      destruct (decide (is_Some (clients (server w) !! ws)
                        /\ ws ∉ closed w)) as [[H1' H2']|H'];
      try reflexivity.
    + exfalso. apply H'. split; [apply map_fst_keys; exact H1|exact H2].
    + exfalso. apply H. split; [apply map_fst_keys; exact H1'|exact H2'].
Qed.

(** X8. [broadcast] never raises and hands the message exactly once to
    every connection that is registered and open, appended after what that
    connection was sent before; a connection that is closed, or not
    registered, gets nothing; the server object and its output are
    untouched. With an empty registry nothing happens. *)
Theorem broadcast_delivery (msg : json) (w : World) :
  exists w',
    broadcast msg w = (Ok (), w') /\
    server w' = server w /\ closed w' = closed w /\
    stdout w' = stdout w /\
    forall ws,
      sent w' !! ws =
        if decide (is_Some (clients (server w) !! ws) /\ ws ∉ closed w)
        then Some (default [] (sent w !! ws) ++ [msg])
        else sent w !! ws.
Proof.
  unfold broadcast. cbv [mbind M_mbind M_bind get].
  destruct (decide (clients (server w) = ∅)) as [He|Hne].
  - exists w. split; [reflexivity|]. split; [reflexivity|].
    split; [reflexivity|]. split; [reflexivity|].
    intros ws. rewrite He, lookup_empty.
    destruct (decide _) as [[[p H] _]|_]; [discriminate H|reflexivity].
  - destruct (gather_delivery msg (map fst (map_to_list (clients (server w))))
                w (map_fst_NoDup _)) as (w' & E & S & C & O & D).
    exists w'. split; [exact E|]. split; [exact S|]. split; [exact C|].
    split; [exact O|]. intros ws. rewrite D.
    destruct (decide (ws ∈ map fst (map_to_list (clients (server w)))
                      /\ ws ∉ closed w)) as [[H1 H2]|H];
      destruct (decide (is_Some (clients (server w) !! ws)
                        /\ ws ∉ closed w)) as [[H1' H2']|H'];
      try reflexivity.
    + exfalso. apply H'. split; [apply map_fst_keys; exact H1|exact H2].
    + exfalso. apply H. split; [apply map_fst_keys; exact H1'|exact H2'].
Qed.

(** ** The game loop *)

(** X9. The state message of a turn carries the clock reading in
    milliseconds and a players array with exactly one entry per registered
    connection -- the [to_dict] of its player -- and none for anybody
    else. *)
Theorem state_message_snapshot (now : float) (w : World) :
  py_get (state_message now w) "type" JNull = Ok (JStr "state") /\
  py_get (state_message now w) "timestamp" JNull
    = Ok (JNum (PFloat (now * 1000))) /\
  exists entries : list (websocket * Player),
    py_get (state_message now w) "players" JNull
      = Ok (JArr (map (fun kv => to_dict (snd kv)) entries)) /\
    NoDup (map fst entries) /\
    length entries = size (clients (server w)) /\
    forall ws p,
      In (ws, p) entries <-> clients (server w) !! ws = Some p.
Proof.
  split; [reflexivity|]. split; [reflexivity|].
  exists (map_to_list (clients (server w))).
  split; [reflexivity|]. split; [apply map_fst_NoDup|].
  split; [apply length_map_to_list|]. intros ws p.
  rewrite <- list_elem_of_In. apply elem_of_map_to_list.
Qed.

Lemma state_message_server (now : float) (w w1 : World) :
  server w1 = server w -> state_message now w1 = state_message now w.
Proof. intros H. unfold state_message. rewrite H. reflexivity. Qed.

(** X10. [game_loop] never raises and never changes the server object or
    its output: after the turns of [clock], every connection that is
    registered and open has been sent one state message per turn, in
    order, each built from the same registry, and every other connection
    nothing. *)
Theorem game_loop_delivery (clock : list float) (w : World) :
  exists w',
    game_loop clock w = (Ok (), w') /\
    server w' = server w /\ closed w' = closed w /\
    stdout w' = stdout w /\
    forall ws,
      (is_Some (clients (server w) !! ws) /\ ws ∉ closed w ->
       default [] (sent w' !! ws)
         = default [] (sent w !! ws)
           ++ map (fun now => state_message now w) clock) /\
      (~ (is_Some (clients (server w) !! ws) /\ ws ∉ closed w) ->
       sent w' !! ws = sent w !! ws).
Proof.
  unfold game_loop. revert w.
  induction clock as [|now clock IH]; intros w.
  - exists w. split; [reflexivity|]. split; [reflexivity|].
    split; [reflexivity|]. split; [reflexivity|]. intros ws. split.
    + intros _. simpl. rewrite app_nil_r. reflexivity.
    + reflexivity.
  - simpl for_each. cbv [mbind M_mbind M_bind]. unfold tick at 1.
    cbv [mbind M_mbind M_bind get].
    destruct (broadcast_sends (state_message now w) w)
      as (w1 & E1 & S1 & C1 & O1 & D1).
    rewrite E1. destruct (IH w1) as (w2 & E2 & S2 & C2 & O2 & D2).
    exists w2. split; [exact E2|]. split; [congruence|].
    split; [congruence|]. split; [congruence|]. intros ws.
    specialize (D1 ws). specialize (D2 ws). rewrite S1, C1 in D2.
    destruct D2 as [D2a D2b].
    destruct (decide (is_Some (clients (server w) !! ws) /\ ws ∉ closed w))
      as [H|H].
    + split; [intros _|contradiction].
      rewrite (D2a H), D1. simpl. rewrite <- app_assoc. simpl.
      f_equal. f_equal. apply map_ext. intros t.
      apply state_message_server. exact S1.
    + split; [contradiction|intros _]. rewrite (D2b H). exact D1.
Qed.

(** ** Schedules of events *)

Lemma cleanup_registered (ws : websocket) (client_id : string) (w : World)
    (p : Player) :
  clients (server w) !! ws = Some p ->
  exists w',
    cleanup ws client_id w = (Ok (), w') /\
    server w' = server (set_clients (fun c => delete ws c) w).
Proof.
  intros Hp. unfold cleanup, del_client.
  cbv [mbind M_mbind M_bind get modify]. rewrite Hp.
  match goal with
  | |- context [broadcast ?m ?w1] =>
      destruct (broadcast_ok m w1) as (w2 & E2 & S2)
  end.
  rewrite E2. exists w2. split; [reflexivity|exact S2].
Qed.

Lemma consistent_server (s : System) (w' : World) :
  consistent s -> server w' = server (world s) ->
  consistent {| world := w'; handlers := handlers s |}.
Proof.
  intros (Ha & Hb & Hc & Hd) Hs.
  unfold consistent, all_in_world. simpl. rewrite Hs. auto.
Qed.

Lemma consistent_touched (s : System) (ws : websocket) (w1 : World) :
  consistent s -> is_Some (handlers s !! ws) ->
  touches_only ws (world s) w1 -> all_in_world w1 ->
  consistent {| world := w1; handlers := handlers s |}.
Proof.
  intros (Ha & Hb & Hc & Hd) [cid Hh] (Hn & _ & _ & _ & Ho & Hown) Hw.
  destruct (proj1 (Ha ws cid) Hh) as (p & Hp & Hid).
  rewrite Hp in Hown. destruct Hown as (p' & Hp' & Hid').
  unfold consistent. simpl. split; [|split; [|split]].
  - intros ws0 cid0. destruct (decide (ws0 = ws)) as [->|Hne].
    + split.
      * intros H. exists p'. split; [exact Hp'|]. congruence.
      * intros (p0 & Hp0 & Hid0). rewrite Hh. congruence.
    + rewrite (proj1 (Ho ws0 Hne)). apply Ha.
  - intros ws0 cid0 H. rewrite Hn. eapply Hb. exact H.
  - exact Hc.
  - exact Hw.
Qed.

Lemma consistent_removed (s : System) (ws : websocket) (w1 w2 : World) :
  consistent s -> is_Some (handlers s !! ws) ->
  touches_only ws (world s) w1 ->
  server w2 = server (set_clients (fun c => delete ws c) w1) ->
  consistent {| world := w2; handlers := delete ws (handlers s) |}.
Proof.
  intros (Ha & Hb & Hc & Hd) [cid Hh] (Hn & _ & _ & _ & Ho & Hown) Hs.
  unfold consistent, all_in_world. simpl. rewrite Hs. simpl.
  split; [|split; [|split]].
  - intros ws0 cid0. destruct (decide (ws0 = ws)) as [->|Hne].
    + rewrite !lookup_delete_eq. split; [discriminate|].
      intros (p0 & Hp0 & _). discriminate Hp0.
    + rewrite !lookup_delete_ne by congruence.
      rewrite (proj1 (Ho ws0 Hne)). apply Ha.
  - intros ws0 cid0 H. apply lookup_delete_Some in H as [_ H].
    rewrite Hn. eapply Hb. exact H.
  - intros ws1 ws2 cid0 H1 H2.
    apply lookup_delete_Some in H1 as [_ H1].
    apply lookup_delete_Some in H2 as [_ H2].
    eapply Hc; eassumption.
  - intros ws0 p0 H. apply lookup_delete_Some in H as [Hne H].
    rewrite (proj1 (Ho ws0 (not_eq_sym Hne))) in H. eapply Hd. exact H.
Qed.

Lemma consistent_connected (json_loads : string -> res json)
    (s : System) (ws : websocket) :
  consistent s -> handlers s !! ws = None ->
  consistent (on_event json_loads (Connect ws) s).
Proof.
  intros (Ha & Hb & Hc & Hd) Hh. unfold on_event. rewrite Hh.
  unfold connect. cbv [mbind M_mbind M_bind get modify print mret M_mret
    M_ret].
  set (n := next_client_id (server (world s))).
  match goal with
  | |- context [send_message ws ?m ?w1] =>
      destruct (send_message_ok ws m w1) as (w2 & E2 & S2)
  end.
  rewrite E2. unfold consistent, all_in_world. simpl. rewrite S2. simpl.
  split; [|split; [|split]].
  - intros ws0 cid0. destruct (decide (ws0 = ws)) as [->|Hne].
    + rewrite !lookup_insert_eq. split.
      * intros [= <-]. eexists. split; reflexivity.
      * intros (p0 & [= <-] & <-). reflexivity.
    + rewrite !lookup_insert_ne by congruence. apply Ha.
  - intros ws0 cid0. destruct (decide (ws0 = ws)) as [->|Hne].
    + rewrite lookup_insert_eq. intros [= <-]. exists n. split; [reflexivity|].
      lia.
    + rewrite lookup_insert_ne by congruence. intros H.
      destruct (Hb _ _ H) as (n0 & -> & Hlt). exists n0.
      split; [reflexivity|]. fold n in Hlt. lia.
  - intros ws1 ws2 cid0.
    destruct (decide (ws1 = ws)) as [->|Hne1];
      destruct (decide (ws2 = ws)) as [->|Hne2];
      rewrite ?lookup_insert_eq, ?lookup_insert_ne by congruence.
    + reflexivity.
    + intros [= <-] H. destruct (Hb _ _ H) as (n0 & E & Hlt).
      apply (inj pretty) in E. fold n in Hlt. lia.
    + intros H [= <-]. destruct (Hb _ _ H) as (n0 & E & Hlt).
      apply (inj pretty) in E. fold n in Hlt. lia.
    + apply Hc.
  - intros ws0 p0. destruct (decide (ws0 = ws)) as [->|Hne].
    + rewrite lookup_insert_eq. intros [= <-]. reflexivity.
    + rewrite lookup_insert_ne by congruence. apply Hd.
Qed.

Lemma System_init_consistent : consistent System_init.
Proof.
  unfold consistent, all_in_world, System_init. simpl.
  split; [|split; [|split]].
  - intros ws cid. rewrite !lookup_empty. split; [discriminate|].
    intros (p & H & _). discriminate H.
  - intros ws cid H. rewrite lookup_empty in H. discriminate H.
  - intros ws1 ws2 cid H. rewrite lookup_empty in H. discriminate H.
  - intros ws p H. rewrite lookup_empty in H. discriminate H.
Qed.

Section Schedules.
Variable json_loads : string -> res json.

Lemma on_event_consistent (ev : conn_event) (s : System) :
  consistent s -> consistent (on_event json_loads ev s).
Proof.
  intros Hc. destruct ev as [ws|ws message|ws ending|now].
  - destruct (handlers s !! ws) as [cid|] eqn:Hh.
    + unfold on_event. rewrite Hh. exact Hc.
    + apply consistent_connected; assumption.
  - unfold on_event. destruct (handlers s !! ws) as [cid|] eqn:Hh;
      [|exact Hc].
    pose proof (handle_message_touches json_loads ws message (world s)) as Hf.
    pose proof (handle_message_world json_loads ws message (world s)
                  (proj2 (proj2 (proj2 Hc)))) as Hw.
    destruct (handle_message json_loads ws message (world s))
      as [[[]|e] w1]; simpl in Hf, Hw.
    + eapply consistent_touched; eauto.
    + destruct Hc as (Ha & Hrest).
      destruct (proj1 (Ha ws cid) Hh) as (p & Hp & _).
      cbv zeta.
      set (w2 := match e with
                 | ConnectionClosed => snd (print (LogDisconnected cid) w1)
                 | _ => w1
                 end).
      assert (Hs2 : server w2 = server w1 /\ closed w2 = closed w1 /\
                    sent w2 = sent w1)
        by (unfold w2; destruct e; repeat split).
      destruct Hs2 as (Hs2 & Hc2 & Hm2).
      assert (Hf2 : touches_only ws (world s) w2).
      { unfold touches_only. rewrite Hs2, Hc2, Hm2. exact Hf. }
      pose proof Hf2 as (_ & _ & _ & _ & _ & Hown). rewrite Hp in Hown.
      destruct Hown as (p' & Hp' & _).
      destruct (cleanup_registered ws cid w2 p' Hp') as (w3 & E3 & S3).
      rewrite E3. simpl.
      eapply (consistent_removed s ws w2 w3); eauto.
      split; assumption.
  - unfold on_event. destruct (handlers s !! ws) as [cid|] eqn:Hh;
      [|exact Hc].
    set (w1 := match ending with
               | ClosedOK => world s
               | ClosedError => snd (print (LogDisconnected cid) (world s))
               end).
    assert (Hs1 : server w1 = server (world s) /\
                  closed w1 = closed (world s) /\
                  sent w1 = sent (world s))
      by (destruct ending; repeat split).
    destruct Hs1 as (Hs1 & Hc1 & Hm1).
    assert (Hf : touches_only ws (world s) w1).
    { apply touches_only_same_server; try assumption.
      intros ws' _. rewrite Hm1. reflexivity. }
    pose proof Hc as (Ha & _).
    destruct (proj1 (Ha ws cid) Hh) as (p & Hp & _).
    rewrite <- Hs1 in Hp.
    destruct (cleanup_registered ws cid w1 p Hp) as (w2 & E2 & S2).
    cbv zeta. fold w1. rewrite E2. simpl.
    eapply (consistent_removed s ws w1 w2); eauto.
  - unfold on_event, tick. cbv [mbind M_mbind M_bind get].
    destruct (broadcast_ok (state_message now (world s)) (world s))
      as (w' & E & S).
    rewrite E. simpl. apply consistent_server; assumption.
Qed.

Lemma run_preserves_consistent (schedule : list conn_event) (s : System) :
  consistent s -> consistent (run json_loads schedule s).
Proof.
  unfold run. revert s. induction schedule as [|ev schedule IH]; intros s Hs.
  - exact Hs.
  - simpl. apply IH. apply on_event_consistent. exact Hs.
Qed.

(** X11. From a freshly started server, after any schedule of
    connections, messages (whatever they decode to), stream ends and
    turns of the game loop: the registry holds exactly the connections
    whose handler is still running, each player under the identity its
    handler was given; identities are decimal counters below
    [next_client_id]; no two registered players share an identity; and
    every registered player is inside the world rectangle. *)
Theorem run_consistent (schedule : list conn_event) :
  consistent (run json_loads schedule System_init) /\
  forall ws1 ws2 p1 p2,
    clients (server (world (run json_loads schedule System_init))) !! ws1
      = Some p1 ->
    clients (server (world (run json_loads schedule System_init))) !! ws2
      = Some p2 ->
    id p1 = id p2 -> ws1 = ws2.
Proof.
  pose proof (run_preserves_consistent schedule _ System_init_consistent)
    as H.
  split; [exact H|].
  destruct H as (Ha & _ & Hc & _).
  intros ws1 ws2 p1 p2 H1 H2 Hid.
  apply (Hc ws1 ws2 (id p1)).
  - apply Ha. eauto.
  - apply Ha. eauto.
Qed.

(** X12. In every state a schedule can reach, the [finally] block of a
    running handler finds its registry entry: [del self.clients[websocket]]
    does not raise and the block completes. *)
Theorem cleanup_never_fails (schedule : list conn_event) (ws : websocket)
    (client_id : string) :
  handlers (run json_loads schedule System_init) !! ws = Some client_id ->
  exists w',
    cleanup ws client_id (world (run json_loads schedule System_init))
      = (Ok (), w') /\
    clients (server w') !! ws = None.
Proof.
  intros Hh.
  destruct (run_preserves_consistent schedule _ System_init_consistent)
    as (Ha & _).
  destruct (proj1 (Ha ws client_id) Hh) as (p & Hp & _).
  destruct (cleanup_registered ws client_id _ p Hp) as (w' & E & S).
  exists w'. split; [exact E|]. rewrite S. simpl. apply lookup_delete_eq.
Qed.

(** An event for a connection without a running handler changes nothing. *)
Lemma run_no_handler (ws : websocket) (messages : list string)
    (ending : stream_end) (s : System) :
  handlers s !! ws = None ->
  run json_loads (map (Receive ws) messages ++ [EndOfStream ws ending]) s = s.
Proof.
  intros Hh. unfold run.
  induction messages as [|m ms IH]; simpl; rewrite Hh; [reflexivity|].
  exact IH.
Qed.

Lemma handle_client_unfold (ws : websocket) (incoming : list string)
    (ending : stream_end) (w : World) :
  handle_client json_loads ws incoming ending w =
  match connect ws w with
  | (Ok client_id, w1) =>
      try_finally
        (try_except
           (send_message ws (connected_message client_id);;
            for_each (handle_message json_loads ws) incoming;;
            match ending with
            | ClosedOK => mret ()
            | ClosedError => raise ConnectionClosed
            end)
           (fun e => match e with
                     | ConnectionClosed =>
                         Some (print (LogDisconnected client_id))
                     | _ => None
                     end))
        (cleanup ws client_id) w1
  | (Raise e, w1) => (Raise e, w1)
  end.
Proof. reflexivity. Qed.

(** The message loop of a handler followed by its [finally] block leaves
    the world the schedule of the same events leaves. *)
Lemma loop_as_schedule (ws : websocket) (client_id : string)
    (ending : stream_end) (incoming : list string) (w : World)
    (hs : gmap websocket string) :
  hs !! ws = Some client_id ->
  snd (try_finally
         (try_except
            (for_each (handle_message json_loads ws) incoming;;
             match ending with
             | ClosedOK => mret ()
             | ClosedError => raise ConnectionClosed
             end)
            (fun e => match e with
                      | ConnectionClosed =>
                          Some (print (LogDisconnected client_id))
                      | _ => None
                      end))
         (cleanup ws client_id) w)
  = world (run json_loads
             (map (Receive ws) incoming ++ [EndOfStream ws ending])
             {| world := w; handlers := hs |}).
Proof.
  intros Hh. revert w. induction incoming as [|m ms IH]; intros w.
  - unfold run. simpl. rewrite Hh.
    unfold try_finally, try_except. cbv [mbind M_mbind M_bind mret M_mret
      M_ret raise].
    destruct ending; simpl;
      destruct (cleanup ws client_id _) as [[[]|e] w2]; reflexivity.
  - unfold run. simpl fold_left. cbn [on_event]. rewrite Hh.
    fold (run json_loads (map (Receive ws) ms ++ [EndOfStream ws ending])).
    specialize (IH (snd (handle_message json_loads ws m w))).
    unfold try_finally, try_except in *.
    simpl for_each. cbv [mbind M_mbind M_bind] in *.
    destruct (handle_message json_loads ws m w) as [[[]|e] w1];
      simpl in IH.
    + exact IH.
    + cbv zeta.
      match goal with
      | |- context [delete ws hs] =>
          match goal with
          | |- context [mkSystem ?w2 (delete ws hs)] =>
              pose proof (run_no_handler ws ms ending
                            {| world := w2; handlers := delete ws hs |}
                            (lookup_delete_eq _ _)) as Hn
          end
      end.
      unfold run in Hn. rewrite Hn.
      destruct e; simpl;
        match goal with
        | |- context [cleanup ws client_id ?w2] =>
            destruct (cleanup ws client_id w2) as [[[]|e'] w3]
        end; reflexivity.
Qed.

(** X13. Running [handle_client] for a connection from start to end leaves
    the world that the event loop leaves after that connection's events
    alone: its start, its messages in order, and the end of its stream. When
    a message makes [handle_message] raise, the later messages are never
    handled. *)
Theorem handle_client_as_schedule (ws : websocket) (incoming : list string)
    (ending : stream_end) (w : World) :
  snd (handle_client json_loads ws incoming ending w)
  = world (run json_loads
             (Connect ws :: map (Receive ws) incoming
                ++ [EndOfStream ws ending])
             {| world := w; handlers := ∅ |}).
Proof.
  rewrite handle_client_unfold.
  set (cid := pretty (next_client_id (server w)) : string).
  set (w1 := snd (connect ws w)).
  change (connect ws w) with (Ok cid, w1). cbv beta iota.
  change (run json_loads
            (Connect ws :: map (Receive ws) incoming
               ++ [EndOfStream ws ending])
            {| world := w; handlers := ∅ |})
    with (run json_loads
            (map (Receive ws) incoming ++ [EndOfStream ws ending])
            {| world := snd (send_message ws (connected_message cid) w1);
               handlers := <[ws := cid]> ∅ |}).
  rewrite <- (loop_as_schedule ws cid ending incoming
                (snd (send_message ws (connected_message cid) w1))
                (<[ws := cid]> ∅) (lookup_insert_eq _ _ _)).
  destruct (send_message_ok ws (connected_message cid) w1) as (w2 & E2 & _).
  unfold try_finally, try_except.
  cbv [mbind M_mbind M_bind]. rewrite E2. reflexivity.
Qed.

End Schedules.

(** ** A whole connection *)

Lemma touches_only_refl (ws : websocket) (w : World) : touches_only ws w w.
Proof. apply touches_only_same_server; reflexivity. Qed.

Lemma touches_only_trans (ws : websocket) (w1 w2 w3 : World) :
  touches_only ws w1 w2 -> touches_only ws w2 w3 -> touches_only ws w1 w3.
Proof.
  intros (Hn & Hr & Hi & Hc & Ho & Hown) (Hn' & Hr' & Hi' & Hc' & Ho' & Hown').
  unfold touches_only.
  split; [congruence|]. split; [congruence|]. split; [congruence|].
  split; [congruence|]. split.
  - intros ws' Hne. destruct (Ho ws' Hne), (Ho' ws' Hne).
    split; congruence.
  - destruct (clients (server w1) !! ws) as [p|].
    + destruct Hown as (p2 & Hp2 & Hid2). rewrite Hp2 in Hown'.
      destruct Hown' as (p3 & Hp3 & Hid3). exists p3. split; congruence.
    + rewrite Hown in Hown'. exact Hown'.
Qed.

Section Connection.
Variable json_loads : string -> res json.

(** [handle_message] only ever appends to what its connection was sent. *)
Lemma handle_message_appends (ws : websocket) (message : string)
    (w : World) :
  exists l,
    default [] (sent (snd (handle_message json_loads ws message w)) !! ws)
      = default [] (sent w !! ws) ++ l.
Proof.
  destruct (handle_message_cases json_loads ws message w)
    as [(r & E & _)|[(l & E)|[(m & E)|(player & i & Hp & _ & E)]]];
    rewrite E.
  - exists []. simpl. rewrite app_nil_r. reflexivity.
  - exists []. simpl. rewrite app_nil_r. reflexivity.
  - unfold send_message, try_except, websocket_send.
    destruct (decide (ws ∈ closed w)); simpl.
    + exists []. rewrite app_nil_r. reflexivity.
    + exists [m]. rewrite lookup_insert_eq. reflexivity.
  - exists []. unfold on_player.
    destruct (accepted i (tick_interval (server w)) player). simpl.
    rewrite app_nil_r. reflexivity.
Qed.

Lemma message_loop_effect (ws : websocket) (incoming : list string)
    (w : World) :
  touches_only ws w
    (snd (for_each (handle_message json_loads ws) incoming w)) /\
  exists l,
    default []
      (sent (snd (for_each (handle_message json_loads ws) incoming w)) !! ws)
      = default [] (sent w !! ws) ++ l.
Proof.
  revert w. induction incoming as [|m ms IH]; intros w.
  - simpl. split; [apply touches_only_refl|].
    exists []. rewrite app_nil_r. reflexivity.
  - simpl for_each. cbv [mbind M_mbind M_bind].
    pose proof (handle_message_touches json_loads ws m w) as Ht.
    destruct (handle_message_appends ws m w) as [l1 Hl1].
    destruct (handle_message json_loads ws m w) as [[[]|e] w1];
      simpl in Ht, Hl1.
    + destruct (IH w1) as (Ht2 & l2 & Hl2). split.
      * eapply touches_only_trans; eassumption.
      * exists (l1 ++ l2). rewrite Hl2, Hl1, app_assoc. reflexivity.
    + simpl. split; [exact Ht|]. exists l1. exact Hl1.
Qed.

(** X20. A connection handled from start to end, on a connection object
    that was not registered: whatever it sends and however it ends, the
    registry is afterwards exactly what it was before, the identity counter
    has advanced by one, and -- when the connection is open -- the first
    thing it was sent is the [connected] message carrying the identity
    taken from the counter and the player at the origin. *)
Theorem handle_client_effect (ws : websocket) (incoming : list string)
    (ending : stream_end) (w : World) :
  clients (server w) !! ws = None ->
  clients (server (snd (handle_client json_loads ws incoming ending w)))
    = clients (server w) /\
  next_client_id
    (server (snd (handle_client json_loads ws incoming ending w)))
    = S (next_client_id (server w)) /\
  (ws ∉ closed w ->
   exists rest,
     sent (snd (handle_client json_loads ws incoming ending w)) !! ws
     = Some (default [] (sent w !! ws)
             ++ connected_message (pretty (next_client_id (server w)))
                :: rest)).
Proof.
  intros Hfresh. rewrite handle_client_unfold.
  set (cid := pretty (next_client_id (server w)) : string).
  set (w1 := snd (connect ws w)).
  change (connect ws w) with (Ok cid, w1). cbv beta iota.
  set (cm := connected_message cid).
  set (w2 := snd (send_message ws cm w1)).
  set (w3 := snd (for_each (handle_message json_loads ws) incoming w2)).
  destruct (message_loop_effect ws incoming w2) as (Ht & l & Hl).
  fold w3 in Ht, Hl.
  (* the world the [finally] block starts from *)
  assert (Hbody : exists w3',
             snd (try_except
                    (send_message ws cm;;
                     for_each (handle_message json_loads ws) incoming;;
                     match ending with
                     | ClosedOK => mret ()
                     | ClosedError => raise ConnectionClosed
                     end)
                    (fun e => match e with
                              | ConnectionClosed =>
                                  Some (print (LogDisconnected cid))
                              | _ => None
                              end) w1) = w3' /\
             server w3' = server w3 /\ sent w3' = sent w3 /\
             closed w3' = closed w3).
  { unfold try_except. cbv [mbind M_mbind M_bind].
    destruct (send_message_ok ws cm w1) as (w2' & E2 & _).
    assert (w2' = w2) by (unfold w2; rewrite E2; reflexivity). subst w2'.
    rewrite E2. unfold w3.
    destruct (for_each (handle_message json_loads ws) incoming w2)
      as [[[]|e] w3x]; simpl.
    - destruct ending; simpl; eexists; repeat split.
    - destruct e; simpl; eexists; repeat split. }
  destruct Hbody as (w3' & Eb & S3 & M3 & C3).
  unfold try_finally.
  destruct (try_except _ _ w1) as [rb wb]. simpl in Eb. subst wb.
  (* facts about w1, w2 *)
  assert (Hc1 : clients (server w1) = <[ws := Player_init cid]>
                                        (clients (server w)))
    by reflexivity.
  assert (Hn1 : next_client_id (server w1) = S (next_client_id (server w)))
    by reflexivity.
  destruct (send_message_ok ws cm w1) as (w2' & E2 & S2).
  assert (w2' = w2) by (unfold w2; rewrite E2; reflexivity). subst w2'.
  destruct Ht as (Hn & _ & _ & Hcl & Ho & Hown).
  rewrite S2, Hc1, lookup_insert_eq in Hown.
  destruct Hown as (p3 & Hp3 & _).
  rewrite <- S3 in Hp3.
  unfold cleanup, del_client. cbv [mbind M_mbind M_bind get modify].
  rewrite Hp3.
  match goal with
  | |- context [broadcast ?m ?wd] =>
      destruct (broadcast_sends m wd) as (w4 & E4 & S4 & _ & _ & D4)
  end.
  rewrite E4. simpl. rewrite S4. simpl. split; [|split].
  - apply map_eq. intros ws'. destruct (decide (ws' = ws)) as [->|Hne].
    + rewrite lookup_delete_eq, Hfresh. reflexivity.
    + rewrite lookup_delete_ne by congruence.
      rewrite S3, (proj1 (Ho ws' Hne)), S2, Hc1.
      apply lookup_insert_ne. congruence.
  - rewrite S3, Hn, S2. exact Hn1.
  - intros Hopen. rewrite (D4 ws). simpl.
    destruct (decide _) as [[[p Hp] _]|_].
    { rewrite lookup_delete_eq in Hp. discriminate Hp. }
    rewrite M3.
    assert (Hs2 : sent w2 !! ws = Some (default [] (sent w !! ws) ++ [cm])).
    { unfold w2, send_message, try_except, websocket_send.
      change (closed w1) with (closed w).
      destruct (decide (ws ∈ closed w)); [contradiction|].
      simpl. apply lookup_insert_eq. }
    rewrite Hs2 in Hl. simpl in Hl.
    exists l. destruct (sent w3 !! ws) as [x|] eqn:Ex; simpl in Hl.
    + rewrite Hl, <- app_assoc. reflexivity.
    + exfalso. destruct (default [] (sent w !! ws)); discriminate Hl.
Qed.

End Connection.

(** ** The theorems at concrete inputs *)


Lemma handle_message_keeps_world_witness :
  all_in_world
    (snd (handle_message
            (decoder_for "m" (input_message (command 4 (PInt 1) (PInt (-1)))))
            1%nat "m" (world_with 1%nat (player_at 49.9 (-49.9) 3)))).
Proof.
  apply (handle_message_keeps_world
           (decoder_for "m" (input_message (command 4 (PInt 1) (PInt (-1)))))
           1%nat "m" (world_with 1%nat (player_at 49.9 (-49.9) 3))).
  - intros ws p H. simpl in H.
    apply lookup_singleton_Some in H as [_ <-]. vm_compute. reflexivity.
  - vm_compute. reflexivity.
Defined.

Lemma handle_client_effect_witness :
  clients (server (snd (handle_client (fun _ => Raise JSONDecodeError) 2%nat
                          ["x"; "y"] ClosedError (world_with 1%nat (player_at 3 4 7)))))
    = clients (server (world_with 1%nat (player_at 3 4 7))) /\
  next_client_id
    (server (snd (handle_client (fun _ => Raise JSONDecodeError) 2%nat
                    ["x"; "y"] ClosedError (world_with 1%nat (player_at 3 4 7)))))
    = 2%nat.
Proof.
  destruct (handle_client_effect (fun _ => Raise JSONDecodeError) 2%nat
              ["x"; "y"]%string ClosedError (world_with 1%nat (player_at 3 4 7)))
    as (Hc & Hn & _).
  - vm_compute. reflexivity.
  - split; [exact Hc | exact Hn].
Defined.

Lemma cleanup_never_fails_witness :
  exists w',
    cleanup 5%nat "0"
      (world (run (fun _ => Raise JSONDecodeError)
                [Connect 5%nat; Receive 5%nat "x"] System_init))
      = (Ok (), w') /\
    clients (server w') !! 5%nat = None.
Proof.
  apply (cleanup_never_fails (fun _ => Raise JSONDecodeError)
           [Connect 5%nat; Receive 5%nat "x"%string] 5%nat "0"%string).
  vm_compute. reflexivity.
Defined.

End ServerMore.

(** * Further properties of latency-simulator.py *)

Module ProxyMore.
Import Proxy ProxyFacts.

Lemma written_app (a b : list event) : written (a ++ b) = written a ++ written b.
Proof. unfold written. apply flat_map_app. Qed.

Lemma count_events_app (f : event -> bool) (a b : list event) :
  count_events f (a ++ b) = (count_events f a + count_events f b)%nat.
Proof. induction a as [|e a IH]; simpl; [reflexivity|]. rewrite IH. lia. Qed.

Lemma written_repeat_dropped (direction : string) (n : nat) :
  written (repeat (PrintDropped direction) n) = [].
Proof. induction n as [|n IH]; [reflexivity|exact IH]. Qed.

Lemma count_dropped_repeat (direction : string) (n : nat) :
  count_events is_dropped (repeat (PrintDropped direction) n) = n.
Proof. induction n as [|n IH]; simpl; [reflexivity|]. rewrite IH. lia. Qed.

Lemma report_facts (direction : string) (ended : option exn) :
  written (report direction ended) = [] /\
  count_events is_dropped (report direction ended) = 0%nat /\
  count_events is_close (report direction ended) = 0%nat /\
  (count_events is_error (report direction ended) <= 1)%nat.
Proof.
  destruct ended as [e|]; [destruct e|]; simpl; repeat split; lia.
Qed.

Section WithRandom.
Variable draws : nat -> float.

(** What the loop of [forward] does, whichever way it ends; [k] counts
    the chunk, if there is one, that was counted as sent and then neither
    dropped nor written because the loop ended on it. *)
Lemma forward_loop_summary (writer : nat) (direction : string)
    (reads : list turn) (r : Run) :
  exists (evs : list event) (k : nat),
    trace (snd (forward_loop draws reads writer direction r))
      = trace r ++ evs /\
    count_events is_close evs = 0%nat /\
    count_events is_error evs = 0%nat /\
    written evs `sublist_of` map (pair writer) (read_until_eof reads) /\
    same_config (sim r)
      (sim (snd (forward_loop draws reads writer direction r))) /\
    packets_dropped (sim (snd (forward_loop draws reads writer direction r)))
      = packets_dropped (sim r) + Z.of_nat (count_events is_dropped evs) /\
    packets_sent (sim (snd (forward_loop draws reads writer direction r)))
      = packets_sent (sim r) + Z.of_nat (count_events is_dropped evs)
        + Z.of_nat (length (written evs)) + Z.of_nat k /\
    (k <= 1)%nat /\
    (fst (forward_loop draws reads writer direction r) = Ok () ->
     k = 0%nat) /\
    (count_events is_dropped evs + length (written evs) + k
     <= length (read_until_eof reads))%nat.
Proof.
  revert r. induction reads as [|[data sl dr|e0] reads IH]; intros r.
  - exists [], 0%nat. simpl. rewrite app_nil_r.
    repeat split; try lia. constructor.
  - destruct data as [|b data].
    + exists [], 0%nat. simpl. rewrite app_nil_r.
      repeat split; try lia. constructor.
    + destruct (PrimFloat.ltb (draws (rng_calls r))
                  (packet_loss_rate (sim r))) eqn:Hd.
      * rewrite (forward_loop_dropped draws b data sl dr reads writer
                   direction r Hd).
        match goal with
        | |- context [forward_loop draws reads writer direction ?rn] =>
            destruct (IH rn)
              as (evs & k & T & Hc & He & Hsub & Hcfg & Hdr & Hs & Hk
                  & Hok & Hlen)
        end.
        exists (PrintDropped direction :: evs), k.
        rewrite T, Hdr, Hs. simpl. rewrite <- app_assoc. simpl.
        split; [reflexivity|]. split; [exact Hc|]. split; [exact He|].
        split; [apply sublist_cons; exact Hsub|].
        split; [exact Hcfg|]. split; [lia|]. split; [lia|].
        split; [exact Hk|]. split; [exact Hok|]. lia.
      * rewrite (forward_loop_kept draws b data sl dr reads writer
                   direction r Hd).
        match goal with
        | |- context [calculate_delay draws ?r1] =>
            pose proof (calculate_delay_preserves_sim draws r1) as Hsim;
            pose proof (calculate_delay_preserves_trace draws r1) as Htr;
            destruct (calculate_delay draws r1) as [[delay|e] r2]
        end; simpl in Hsim, Htr;
          destruct r2 as [s2 n2 t2]; simpl in Hsim, Htr; subst s2 t2.
        -- assert (Hfc :
             (exists e, forward_chunk writer delay (b :: data) sl dr
                        = ([Sleep delay], Some e)) \/
             (exists pre o,
                forward_chunk writer delay (b :: data) sl dr
                  = (pre ++ [Write writer (b :: data)], o) /\
                written pre = [] /\
                count_events is_dropped pre = 0%nat /\
                count_events is_error pre = 0%nat /\
                count_events is_close pre = 0%nat)).
           { unfold forward_chunk.
             destruct (py_gt (PFloat delay) (PInt 0)); [destruct sl|].
             - left. eexists. reflexivity.
             - right. exists [Sleep delay], dr. repeat split.
             - right. exists [], dr. repeat split. }
           destruct Hfc as [(e & ->)|(pre & o & -> & Pw & Pd & Pe & Pc)];
             cbn [fst snd].
           ++ exists [Sleep delay], 1%nat. simpl.
              split; [reflexivity|]. split; [reflexivity|].
              split; [reflexivity|]. split; [apply sublist_nil_l|].
              split; [repeat split|]. split; [lia|]. split; [lia|].
              split; [lia|]. split; [discriminate|]. lia.
           ++ destruct o as [e|].
              ** exists (pre ++ [Write writer (b :: data)]), 0%nat. simpl.
                 rewrite !count_events_app, written_app, Pw, Pd, Pe, Pc.
                 simpl.
                 split; [reflexivity|]. split; [reflexivity|].
                 split; [reflexivity|].
                 split; [apply sublist_skip, sublist_nil_l|].
                 split; [repeat split|]. split; [lia|]. split; [lia|].
                 split; [lia|]. split; [reflexivity|]. lia.
              ** match goal with
                 | |- context [forward_loop draws reads writer direction
                                 ?rn] =>
                     destruct (IH rn)
                       as (evs & k & T & Hc & He & Hsub & Hcfg & Hdr & Hs
                           & Hk & Hok & Hlen)
                 end.
                 exists ((pre ++ [Write writer (b :: data)]) ++ evs), k.
                 rewrite T, Hdr, Hs. simpl.
                 rewrite !count_events_app, !written_app, Pw, Pd, Pe, Pc.
                 simpl. rewrite ?length_app.
                 split; [rewrite <- !app_assoc; reflexivity|].
                 split; [exact Hc|]. split; [exact He|].
                 split; [apply sublist_skip; exact Hsub|].
                 split; [exact Hcfg|]. split; [lia|]. split; [simpl; lia|].
                 split; [exact Hk|]. split; [exact Hok|]. simpl. lia.
        -- exists [], 1%nat. simpl. rewrite app_nil_r.
           split; [reflexivity|]. split; [reflexivity|].
           split; [reflexivity|]. split; [apply sublist_nil_l|].
           split; [repeat split|]. split; [lia|]. split; [lia|].
           split; [lia|]. split; [discriminate|]. lia.
  - exists [], 0%nat. simpl. rewrite app_nil_r.
    repeat split; try lia. constructor.
Qed.

(** X14. [forward] returns exactly as [writer.wait_closed()] does: it
    raises if and only if that call raises, and then that exception. An
    exception that ends the loop -- a failed read, drain or delay
    computation, a cancellation -- never leaves [forward]: a
    [CancelledError] is swallowed without a word, any other exception is
    printed once. Either way [writer.close()] is called exactly once, after
    everything else, and the configuration of the simulator is never
    changed. *)
Theorem forward_closes_writer (writer : nat) (direction : string)
    (reads : list turn) (closing : option exn) (r : Run) :
  exists r' evs,
    forward draws reads closing writer direction r
      = (result_of closing, r') /\
    trace r'
      = trace r ++ evs
        ++ report direction
             (raised (fst (forward_loop draws reads writer direction r)))
        ++ [Close writer] /\
    count_events is_close evs = 0%nat /\
    count_events is_error evs = 0%nat /\
    same_config (sim r) (sim r').
Proof.
  destruct (forward_loop_summary writer direction reads r)
    as (evs & k & T & Hc & He & _ & Hcfg & _).
  rewrite forward_unfold. eexists. exists evs.
  split; [reflexivity|]. cbn [trace sim]. rewrite T, <- app_assoc.
  split; [reflexivity|]. split; [exact Hc|]. split; [exact He|exact Hcfg].
Qed.

(** X15. What [forward] writes is a subsequence of the chunks it read
    before the end of the stream: every written chunk is one that was
    read, whole and unaltered, written to this loop's writer, at most once
    and in the order of reading. *)
Theorem forward_writes_in_order (writer : nat) (direction : string)
    (reads : list turn) (closing : option exn) (r : Run) :
  exists evs,
    trace (snd (forward draws reads closing writer direction r))
      = trace r ++ evs ++ [Close writer] /\
    written evs `sublist_of` map (pair writer) (read_until_eof reads).
Proof.
  destruct (forward_loop_summary writer direction reads r)
    as (evs & k & T & _ & _ & Hsub & _).
  rewrite forward_unfold. cbn [snd trace].
  exists (evs ++ report direction
                   (raised (fst (forward_loop draws reads writer direction
                                   r)))).
  rewrite T, <- !app_assoc. split; [reflexivity|].
  rewrite written_app, (proj1 (report_facts _ _)), app_nil_r. exact Hsub.
Qed.

(** X16. The counters account for every chunk read, whichever way the
    loop ends: [packets_dropped] grows by the number of drops reported;
    [packets_sent] grows by the drops plus the chunks written plus at most
    one more, the chunk on which the loop failed after counting it and
    before writing it (none when the loop ends normally); it never grows
    by more than the number of chunks read; and a dropped count that does
    not exceed the sent count never comes to exceed it. *)
Theorem forward_accounting (writer : nat) (direction : string)
    (reads : list turn) (closing : option exn) (r : Run) :
  exists (evs : list event) (k : nat),
    trace (snd (forward draws reads closing writer direction r))
      = trace r ++ evs ++ [Close writer] /\
    packets_dropped
      (sim (snd (forward draws reads closing writer direction r)))
      = packets_dropped (sim r) + Z.of_nat (count_events is_dropped evs) /\
    packets_sent (sim (snd (forward draws reads closing writer direction r)))
      = packets_sent (sim r) + Z.of_nat (count_events is_dropped evs)
        + Z.of_nat (length (written evs)) + Z.of_nat k /\
    (k <= 1)%nat /\
    (fst (forward_loop draws reads writer direction r) = Ok () ->
     k = 0%nat) /\
    packets_sent (sim (snd (forward draws reads closing writer direction r)))
      <= packets_sent (sim r) + Z.of_nat (length (read_until_eof reads)) /\
    (packets_dropped (sim r) <= packets_sent (sim r) ->
     packets_dropped
       (sim (snd (forward draws reads closing writer direction r)))
     <= packets_sent
          (sim (snd (forward draws reads closing writer direction r)))).
Proof.
  destruct (forward_loop_summary writer direction reads r)
    as (evs & k & T & _ & _ & _ & _ & Hd & Hs & Hk & Hok & Hlen).
  rewrite forward_unfold. cbn [snd trace sim].
  destruct (report_facts direction
              (raised (fst (forward_loop draws reads writer direction r))))
    as (Rw & Rd & _ & _).
  exists (evs ++ report direction
                   (raised (fst (forward_loop draws reads writer direction
                                   r)))), k.
  rewrite T, <- !app_assoc, count_events_app, written_app, Rw, Rd,
    app_nil_r, Nat.add_0_r.
  split; [reflexivity|]. split; [exact Hd|]. split; [exact Hs|].
  split; [exact Hk|]. split; [exact Hok|]. split; lia.
Qed.

Lemma calculate_delay_overflow (r : Run) :
  float_of_Z (base_latency_ms (sim r)) = Raise OverflowError ->
  fst (calculate_delay draws r) = Raise OverflowError.
Proof.
  intros Hb.
  destruct (Z_lt_le_dec 0 (jitter_ms (sim r))) as [Hj|Hj].
  - rewrite calculate_delay_jitter by exact Hj.
    destruct (random_uniform_cases draws (- jitter_ms (sim r))
                (jitter_ms (sim r)) r) as [(fd & fa & _ & _ & Hf)|Hf];
      rewrite Hf; [|reflexivity].
    cbv [mbind res_mbind res_bind]. simpl py_add.
    cbv [mbind res_mbind res_bind]. rewrite Hb. reflexivity.
  - rewrite calculate_delay_no_jitter by exact Hj.
    rewrite truediv_1000. simpl. rewrite Hb. reflexivity.
Qed.

(** With a base latency that has no float value the loop reports drops
    and nothing else. *)
Lemma forward_loop_overflow (writer : nat) (direction : string)
    (reads : list turn) (r : Run) :
  float_of_Z (base_latency_ms (sim r)) = Raise OverflowError ->
  exists n : nat,
    trace (snd (forward_loop draws reads writer direction r))
      = trace r ++ repeat (PrintDropped direction) n /\
    (n <= length (read_until_eof reads))%nat.
Proof.
  revert r. induction reads as [|[data sl dr|e0] reads IH]; intros r Hb.
  - exists 0%nat. simpl. rewrite app_nil_r. auto.
  - destruct data as [|b data].
    + exists 0%nat. simpl. rewrite app_nil_r. auto.
    + destruct (PrimFloat.ltb (draws (rng_calls r))
                  (packet_loss_rate (sim r))) eqn:Hd.
      * rewrite (forward_loop_dropped draws b data sl dr reads writer
                   direction r Hd).
        match goal with
        | |- context [forward_loop draws reads writer direction ?rn] =>
            destruct (IH rn) as (n & T & Hn); [exact Hb|]
        end.
        exists (S n). rewrite T. simpl. rewrite <- app_assoc.
        split; [reflexivity|lia].
      * rewrite (forward_loop_kept draws b data sl dr reads writer
                   direction r Hd).
        match goal with
        | |- context [calculate_delay draws ?r1] =>
            pose proof (calculate_delay_overflow r1 Hb) as Hr;
            pose proof (calculate_delay_preserves_trace draws r1) as Htr;
            destruct (calculate_delay draws r1) as [[delay|e'] r2]
        end; simpl in Hr, Htr; [discriminate Hr|].
        exists 0%nat. simpl. rewrite app_nil_r. split; [exact Htr|lia].
  - exists 0%nat. simpl. rewrite app_nil_r. auto.
Qed.

(** X17. When the base latency is an integer too large to have a float
    value, [calculate_delay] raises [OverflowError], whatever the jitter.
    So the first chunk that is not dropped ends the loop: it is counted as
    sent, the error is printed, the writer is closed, and nothing is
    written. Over any stream, all [forward] ever does is report drops, then
    report how the loop ended, then close the writer: no chunk is
    written. *)
Theorem unrepresentable_latency_blocks (writer : nat) (direction : string)
    (reads : list turn) (closing : option exn) (r : Run) :
  float_of_Z (base_latency_ms (sim r)) = Raise OverflowError ->
  fst (calculate_delay draws r) = Raise OverflowError /\
  (forall (b : Byte.byte) (data : chunk) (sl dr : option exn),
     PrimFloat.ltb (draws (rng_calls r)) (packet_loss_rate (sim r)) = false ->
     exists r',
       forward draws (Read (b :: data) sl dr :: reads) closing writer
         direction r = (result_of closing, r') /\
       trace r'
         = trace r ++ [PrintError direction OverflowError; Close writer] /\
       sim r' = incr_packets_sent (sim r)) /\
  (exists n : nat,
     trace (snd (forward draws reads closing writer direction r))
       = trace r ++ repeat (PrintDropped direction) n
         ++ report direction
              (raised (fst (forward_loop draws reads writer direction r)))
         ++ [Close writer] /\
     (n <= length (read_until_eof reads))%nat /\
     written (repeat (PrintDropped direction) n
              ++ report direction
                   (raised (fst (forward_loop draws reads writer direction
                                   r)))
              ++ [Close writer]) = []).
Proof.
  intros Hb. split; [apply calculate_delay_overflow; exact Hb|]. split.
  - intros b data sl dr Hkeep. rewrite forward_unfold.
    rewrite (forward_loop_kept draws b data sl dr reads writer direction r
               Hkeep).
    match goal with
    | |- context [calculate_delay draws ?r1] =>
        pose proof (calculate_delay_overflow r1 Hb) as Hr;
        pose proof (calculate_delay_preserves_trace draws r1) as Htr;
        pose proof (calculate_delay_preserves_sim draws r1) as Hsim;
        destruct (calculate_delay draws r1) as [[delay|e'] r2]
    end; simpl in Hr, Htr, Hsim; [discriminate Hr|].
    injection Hr as ->. eexists. split; [reflexivity|].
    cbn [fst snd trace sim raised report]. rewrite Htr, Hsim.
    split; reflexivity.
  - destruct (forward_loop_overflow writer direction reads r Hb)
      as (n & T & Hn).
    exists n. rewrite forward_unfold. cbn [snd trace].
    rewrite T, <- app_assoc. split; [reflexivity|]. split; [exact Hn|].
    rewrite !written_app, written_repeat_dropped,
      (proj1 (report_facts _ _)). reflexivity.
Qed.

End WithRandom.

Lemma main_starts_aux (args : Args) :
  (py_lt (PFloat (arg_packet_loss args)) (PInt 0) = false ->
   py_gt (PFloat (arg_packet_loss args)) (PInt 1) = false ->
   0 <= arg_latency args ->
   main args =
     {| printed := [];
        started :=
          Some {| target_host := arg_target_host args;
                  target_port := arg_target_port args;
                  listen_port := arg_listen_port args;
                  base_latency_ms := arg_latency args;
                  packet_loss_rate := arg_packet_loss args;
                  jitter_ms := arg_jitter args;
                  packets_sent := 0; packets_dropped := 0;
                  total_delay := 0 |} |}) /\
  (started (main args) <> None ->
   py_lt (PFloat (arg_packet_loss args)) (PInt 0) = false /\
   py_gt (PFloat (arg_packet_loss args)) (PInt 1) = false /\
   0 <= arg_latency args).
Proof.
  unfold main. split.
  - intros H1 H2 H3. rewrite H1, H2. simpl.
    destruct (arg_latency args <? 0) eqn:E; [|reflexivity].
    apply Z.ltb_lt in E. lia.
  - destruct (py_lt (PFloat (arg_packet_loss args)) (PInt 0)),
      (py_gt (PFloat (arg_packet_loss args)) (PInt 1)),
      (arg_latency args <? 0) eqn:E; simpl;
      try (intros H; exfalso; apply H; reflexivity).
    apply Z.ltb_ge in E. auto.
Qed.

(** X18. [main] starts the simulator exactly when the loss rate is neither
    below 0 nor above 1 and the latency is not negative; it then prints
    nothing and hands over a simulator carrying the arguments as given,
    with all counters at zero. The jitter is not looked at. *)
Theorem main_starts_iff (args : Args) :
  (py_lt (PFloat (arg_packet_loss args)) (PInt 0) = false ->
   py_gt (PFloat (arg_packet_loss args)) (PInt 1) = false ->
   0 <= arg_latency args ->
   main args =
     {| printed := [];
        started :=
          Some {| target_host := arg_target_host args;
                  target_port := arg_target_port args;
                  listen_port := arg_listen_port args;
                  base_latency_ms := arg_latency args;
                  packet_loss_rate := arg_packet_loss args;
                  jitter_ms := arg_jitter args;
                  packets_sent := 0; packets_dropped := 0;
                  total_delay := 0 |} |}) /\
  (started (main args) <> None ->
   py_lt (PFloat (arg_packet_loss args)) (PInt 0) = false /\
   py_gt (PFloat (arg_packet_loss args)) (PInt 1) = false /\
   0 <= arg_latency args).
Proof.
  unfold main. split.
  - intros H1 H2 H3. rewrite H1, H2. simpl.
    destruct (arg_latency args <? 0) eqn:E; [|reflexivity].
    apply Z.ltb_lt in E. lia.
  - destruct (py_lt (PFloat (arg_packet_loss args)) (PInt 0)),
      (py_gt (PFloat (arg_packet_loss args)) (PInt 1)),
      (arg_latency args <? 0) eqn:E; simpl;
      try (intros H; exfalso; apply H; reflexivity).
    apply Z.ltb_ge in E. auto.
Qed.

(** X19. A jitter that is zero or negative passes [main] unchecked, and
    the simulator it starts then computes every delay -- whatever its
    counters have come to by then -- as the base latency alone,
    latency / 1000.0 seconds, without drawing a random value. *)
Theorem jitter_not_validated (draws : nat -> float) (args : Args)
    (fb : float) :
  py_lt (PFloat (arg_packet_loss args)) (PInt 0) = false ->
  py_gt (PFloat (arg_packet_loss args)) (PInt 1) = false ->
  0 <= arg_latency args ->
  arg_jitter args <= 0 ->
  float_of_Z (arg_latency args) = Ok fb ->
  exists s,
    started (main args) = Some s /\
    jitter_ms s = arg_jitter args /\
    forall r, same_config s (sim r) ->
      calculate_delay draws r = (Ok (fb / 1000)%float, r).
Proof.
  intros H1 H2 H3 Hj Hfb.
  rewrite (proj1 (main_starts_aux args) H1 H2 H3). simpl.
  eexists. split; [reflexivity|]. split; [reflexivity|].
  intros r (_ & _ & _ & Hbase & _ & Hjit). simpl in Hbase, Hjit.
  rewrite calculate_delay_no_jitter by (rewrite Hjit; exact Hj).
  rewrite truediv_1000, Hbase. simpl. rewrite Hfb. reflexivity.
Qed.

(** ** The theorems at concrete inputs *)

Lemma unrepresentable_latency_blocks_witness :
  float_of_Z (2 ^ 1024) = Raise OverflowError /\
  fst (calculate_delay (fun _ => 0.5%float) (fresh_run (2 ^ 1024) 0 0))
    = Raise OverflowError /\
  exists n : nat,
    trace (snd (forward (fun _ => 0.5%float)
                  [Read [Byte.x01] None None; Read [Byte.x02] None None]
                  None 3%nat "up" (fresh_run (2 ^ 1024) 0 0)))
      = [] ++ repeat (PrintDropped "up") n
        ++ report "up"
             (raised (fst (forward_loop (fun _ => 0.5%float)
                             [Read [Byte.x01] None None;
                              Read [Byte.x02] None None]
                             3%nat "up" (fresh_run (2 ^ 1024) 0 0))))
        ++ [Close 3%nat] /\
    (n <= 2)%nat.
Proof.
  split; [vm_compute; reflexivity|].
  destruct (unrepresentable_latency_blocks (fun _ => 0.5%float) 3%nat
              "up"%string
              [Read [Byte.x01] None None; Read [Byte.x02] None None]
              None (fresh_run (2 ^ 1024) 0 0))
    as (Hc & _ & n & T & Hn & _).
  - vm_compute. reflexivity.
  - split; [exact Hc|]. exists n. split; [exact T|exact Hn].
Defined.

Lemma main_starts_iff_witness :
  started (main (mkArgs "localhost" 3000 3001 100 (-5) 0.25))
    = Some (LatencySimulator_init "localhost" 3000 3001 100 0.25 (-5)).
Proof.
  rewrite (proj1 (main_starts_iff
                    (mkArgs "localhost" 3000 3001 100 (-5) 0.25)));
    [reflexivity|vm_compute; reflexivity..|simpl; lia].
Defined.

Lemma jitter_not_validated_witness :
  exists s,
    started (main (mkArgs "localhost" 3000 3001 100 (-5) 0.25)) = Some s /\
    jitter_ms s = -5 /\
    forall r, same_config s (sim r) ->
      calculate_delay (fun _ => 0.5%float) r = (Ok (100 / 1000)%float, r).
Proof.
  apply (jitter_not_validated (fun _ => 0.5%float)
           (mkArgs "localhost" 3000 3001 100 (-5) 0.25) 100%float).
  - vm_compute. reflexivity.
  - vm_compute. reflexivity.
  - simpl. lia.
  - simpl. lia.
  - vm_compute. reflexivity.
Defined.

End ProxyMore.
